(** * Colored Title Bar: the colour generator and the title-bar manager

    A shallow embedding of [src/color-generator.ts] (its latest revision),
    [src/types.ts], [src/title-bar-manager.ts] and the startup logic of
    [src/extension.ts], followed by the properties of the colour
    pipeline, of the manager and of the startup.

    Number model.  A JavaScript [number] is embedded by what the code
    stores in it:
    - the DJB2 hashes and the RGB channels hold integers: [Z], with the
      32-bit wrap-around of [<<] and [>>>] written out;
    - HSL components and the hash-derived fractions are finite doubles,
      all of which are rationals: [Q], with exact arithmetic in place of
      the rounded one;
    - luminances and contrast ratios go through [Math.pow(_, 2.4)]: [R],
      with [Rpower] for [Math.pow] on a positive base;
    - [NaN], which only [parseInt] can produce here, is [None].
    Strings are Rocq strings: sequences of code units below 256. *)

From Stdlib Require Import ZArith QArith Qround Qabs Qminmax.
From Stdlib Require Import Reals Lra Lia Psatz.
From Stdlib Require Import String Ascii List HexadecimalString.
From stdpp Require Import gmap strings.
Import ListNotations.

Local Open Scope Z_scope.
Local Open Scope string_scope.

(** ** types.ts *)

Module Types.

(** HSL color with hue in [0, 360), saturation and lightness in [0, 100]. *)
Record HSL : Type := mkHSL { h : Q; s : Q; l : Q }.

(** RGB color with channels in [0, 255]. *)
Record RGB : Type := mkRGB { r : Z; g : Z; b : Z }.

(** Complete set of title bar color overrides. *)
Record TitleBarColors : Type := mkTitleBarColors {
  activeBackground : string;
  activeForeground : string;
  inactiveBackground : string;
  inactiveForeground : string;
  border : string
}.

(** Simplified theme classification used for color generation. *)
Inductive ThemeKind : Type := Dark | Light | HighContrast.

End Types.
Import Types.

(** ** The JavaScript primitives the module relies on *)

Module JS.

(** [ToInt32]: reduce modulo 2^32 into [-2^31, 2^31). *)
Definition toInt32 (n : Z) : Z := (n + 2 ^ 31) mod 2 ^ 32 - 2 ^ 31.

(** [ToUint32]: reduce modulo 2^32 into [0, 2^32). *)
Definition toUint32 (n : Z) : Z := n mod 2 ^ 32.

(** [n << k]: both operands through [ToInt32]/[ToUint32], the count
    masked to five bits, the result a signed 32-bit integer. *)
Definition shl (n k : Z) : Z :=
  toInt32 (Z.shiftl (toInt32 n) (Z.land (toUint32 k) 31)).

(** [n >>> k]: the left operand through [ToUint32], zero-filling shift. *)
Definition ushr (n k : Z) : Z :=
  Z.shiftr (toUint32 n) (Z.land (toUint32 k) 31).

(** [a % b] on integers: the sign of the result follows the dividend. *)
Definition remZ (a b : Z) : Z := Z.rem a b.

(** [input.charCodeAt(i)] for the [i]-th code unit [c]. *)
Definition charCode (c : ascii) : Z := Z.of_N (N_of_ascii c).

(** Truncation toward zero of a rational. *)
Definition Qtrunc (q : Q) : Z := Z.quot (Qnum q) (Zpos (Qden q)).

(** [a % b] on numbers: [a - b * trunc(a / b)]. *)
Definition fmod (a b : Q) : Q := (a - b * inject_Z (Qtrunc (a / b)))%Q.

(** [Math.round]: the nearest integer, ties toward +infinity. *)
Definition round (x : Q) : Z := Qfloor (x + (1 # 2))%Q.

(** [x < y] on numbers, as a boolean. *)
Definition ltb (x y : Q) : bool := negb (Qle_bool y x).

(** [n.toString(16)] for an integer [n]. *)
Definition toString16 (n : Z) : string :=
  match n with
  | Z0 => "0"
  | Zpos p => NilEmpty.string_of_uint (N.to_hex_uint (Npos p))
  | Zneg p => "-" ++ NilEmpty.string_of_uint (N.to_hex_uint (Npos p))
  end.

Fixpoint replicate (n : nat) (c : ascii) : string :=
  match n with
  | O => EmptyString
  | S n' => String c (replicate n' c)
  end.

(** [str.padStart(target, c)] for a one-character filler. *)
Definition padStart (str : string) (target : nat) (c : ascii) : string :=
  replicate (target - String.length str) c ++ str.

(** [str.slice(i, j)] for [0 <= i <= j]. *)
Definition slice (str : string) (i j : nat) : string :=
  substring i (j - i) str.

(** [hex.replace(/^#/, "")]. *)
Definition stripHash (hex : string) : string :=
  match hex with
  | String "#" rest => rest
  | _ => hex
  end.

(** White space skipped by [parseInt] (the code units below 256 of
    [StrWhiteSpaceChar]): TAB, LF, VT, FF, CR, SP, NBSP. *)
Definition isWhiteSpace (c : ascii) : bool :=
  let n := N_of_ascii c in
  ((9 <=? n) && (n <=? 13) || (n =? 32) || (n =? 160))%N.

Fixpoint trimStart (str : string) : string :=
  match str with
  | String c rest => if isWhiteSpace c then trimStart rest else str
  | EmptyString => str
  end.

(** The value of a radix-16 digit, either case. *)
Definition hexDigit (c : ascii) : option Z :=
  let n := Z.of_N (N_of_ascii c) in
  if ((48 <=? n) && (n <=? 57))%Z then Some (n - 48)
  else if ((97 <=? n) && (n <=? 102))%Z then Some (n - 87)
  else if ((65 <=? n) && (n <=? 70))%Z then Some (n - 55)
  else None.

(** The longest prefix of digits, accumulated most significant first;
    [seen] records whether a digit has been read. *)
Fixpoint parseDigits (seen : bool) (acc : Z) (str : string) : option Z :=
  match str with
  | String c rest =>
      match hexDigit c with
      | Some d => parseDigits true (acc * 16 + d) rest
      | None => if seen then Some acc else None
      end
  | EmptyString => if seen then Some acc else None
  end.

Definition stripPrefix0x (str : string) : string :=
  match str with
  | String "0" (String "x" rest) => rest
  | String "0" (String "X" rest) => rest
  | _ => str
  end.

(** [parseInt(str, 16)]; [None] is [NaN]. *)
Definition parseInt16 (str : string) : option Z :=
  match trimStart str with
  | String "-" rest =>
      option_map Z.opp (parseDigits false 0 (stripPrefix0x rest))
  | String "+" rest => parseDigits false 0 (stripPrefix0x rest)
  | rest => parseDigits false 0 (stripPrefix0x rest)
  end.

End JS.

(** ** color-generator.ts *)

Module ColorGenerator.

(** *** Utilities *)

(** Clamp [value] to the inclusive range [min, max]. *)
Definition clamp (value min max : Q) : Q := Qmin (Qmax value min) max.

(** The loop shared by the two hashes:
    [hash = ((hash << 5) + hash + input.charCodeAt(i)) >>> 0]. *)
Fixpoint hashLoop (hash : Z) (input : string) : Z :=
  match input with
  | EmptyString => hash
  | String c rest =>
      hashLoop (JS.ushr (JS.shl hash 5 + hash + JS.charCode c) 0) rest
  end.

(** Deterministically hash a string to a hue in [0, 360). *)
Definition hashStringToHue (input : string) : Z :=
  JS.remZ (hashLoop 5381 input) 360.

(** Deterministically hash a string to a value in [0, 1). *)
Definition hashStringToFloat (input : string) (seed : Z) : Q :=
  (inject_Z (JS.remZ (hashLoop (5381 + seed) input) 10000) / 10000)%Q.

(** *** Color-space conversions *)

(** Convert an HSL color to RGB. *)
Definition hslToRgb (hsl : HSL) : RGB :=
  let hn := JS.fmod (JS.fmod (h hsl) 360 + 360) 360 in
  let sn := (s hsl / 100)%Q in
  let ln := (l hsl / 100)%Q in
  let c := ((1 - Qabs (2 * ln - 1)) * sn)%Q in
  let x := (c * (1 - Qabs (JS.fmod (hn / 60) 2 - 1)))%Q in
  let m := (ln - c / 2)%Q in
  let '(rp, gp, bp) :=
    if JS.ltb hn 60 then (c, x, 0%Q)
    else if JS.ltb hn 120 then (x, c, 0%Q)
    else if JS.ltb hn 180 then (0%Q, c, x)
    else if JS.ltb hn 240 then (0%Q, x, c)
    else if JS.ltb hn 300 then (x, 0%Q, c)
    else (c, 0%Q, x) in
  {| r := JS.round ((rp + m) * 255);
     g := JS.round ((gp + m) * 255);
     b := JS.round ((bp + m) * 255) |}.

(** The local [hex] of [rgbToHex]:
    [n.toString(16).padStart(2, "0")]. *)
Definition hex (n : Z) : string := JS.padStart (JS.toString16 n) 2 "0".

(** Convert an RGB color to a 6-digit hex string (e.g. [#1a2b3c]). *)
Definition rgbToHex (rgb : RGB) : string :=
  "#" ++ hex (r rgb) ++ hex (g rgb) ++ hex (b rgb).

(** Parse a hex color string ([#rrggbb] or [rrggbb]) into RGB.  The
    result is [None] when [parseInt] yields [NaN] for a channel: the
    luminance of such a colour, the only thing the module computes
    from a parsed colour, is [NaN] whichever channel it is. *)
Definition hexToRgb (hex : string) : option RGB :=
  let h := JS.stripHash hex in
  match JS.parseInt16 (JS.slice h 0 2),
        JS.parseInt16 (JS.slice h 2 4),
        JS.parseInt16 (JS.slice h 4 6) with
  | Some r, Some g, Some b => Some {| r := r; g := g; b := b |}
  | _, _, _ => None
  end.

(** Shorthand: HSL to hex. *)
Definition hslToHex (hsl : HSL) : string := rgbToHex (hslToRgb hsl).

(** *** Contrast helpers (WCAG 2.0) *)

(** The local [linearize] of [relativeLuminance]. *)
Definition linearize (c : Z) : R :=
  let s := (IZR c / 255)%R in
  if Rle_dec s 0.03928 then (s / 12.92)%R
  else Rpower ((s + 0.055) / 1.055) 2.4.

(** Calculate the relative luminance of an RGB color (0 - 1). *)
Definition relativeLuminance (rgb : RGB) : R :=
  (0.2126 * linearize (r rgb) + 0.7152 * linearize (g rgb)
   + 0.0722 * linearize (b rgb))%R.

(** Calculate the WCAG contrast ratio between two RGB colors (1 - 21). *)
Definition contrastRatio (a b : RGB) : R :=
  let la := relativeLuminance a in
  let lb := relativeLuminance b in
  let lighter := Rmax la lb in
  let darker := Rmin la lb in
  ((lighter + 0.05) / (darker + 0.05))%R.

Definition white : RGB := {| r := 255; g := 255; b := 255 |}.
Definition black : RGB := {| r := 0; g := 0; b := 0 |}.

(** Choose the foreground color (white or black) that provides the
    best contrast against the given background hex color.  With a
    [NaN] channel both ratios are [NaN] and [>=] is false. *)
Definition chooseForeground (backgroundHex : string) : string :=
  match hexToRgb backgroundHex with
  | Some bg =>
      if Rge_dec (contrastRatio bg white) (contrastRatio bg black)
      then "#ffffff" else "#000000"
  | None => "#000000"
  end.

(** *** HSL generation *)

(** Generate a random, visually appealing HSL color tuned for [theme];
    [u0], [u1], [u2] are the three successive draws of [Math.random()]. *)
Definition generateAppealingHsl (theme : ThemeKind) (u0 u1 u2 : Q) : HSL :=
  let h := (u0 * 360)%Q in
  match theme with
  | Light => {| h := h; s := 25 + u1 * 60; l := 65 + u2 * 25 |}
  | HighContrast => {| h := h; s := 40 + u1 * 50; l := 10 + u2 * 18 |}
  | Dark => {| h := h; s := 20 + u1 * 65; l := 12 + u2 * 28 |}
  end.

Section Wave.
(** [Math.PI] and [Math.sin] as the host provides them: a double and
    a function from doubles to doubles. *)
Variable Math_PI : Q.
Variable Math_sin : Q -> Q.

(** Create a pleasant HSL anchored to a specific hue for the given
    theme. *)
Definition hslFromHue (hue : Q) (theme : ThemeKind) : HSL :=
  let h := JS.fmod (JS.fmod hue 360 + 360) 360 in
  let hueNorm := (h / 360)%Q in
  let wave := Math_sin (hueNorm * Math_PI * 2)%Q in
  match theme with
  | Light => {| h := h; s := 35 + wave * 20; l := 72 + wave * 8 |}
  | HighContrast => {| h := h; s := 55 + wave * 15; l := 16 + wave * 5 |}
  | Dark => {| h := h; s := 40 + wave * 20; l := 22 + wave * 8 |}
  end.
End Wave.

(** *** Derived colors *)

(** Derive a muted inactive-background HSL from the active color. *)
Definition deriveInactiveHsl (hsl : HSL) (theme : ThemeKind) : HSL :=
  {| h := h hsl;
     s := clamp (s hsl * 0.65) 0 100;
     l := clamp (match theme with
                 | Light => l hsl + 5
                 | _ => l hsl - 3
                 end) 0 100 |}.

(** Derive an inactive foreground by appending 80 % alpha to the
    active foreground hex. *)
Definition deriveInactiveForeground (activeForeground : string) : string :=
  activeForeground ++ "cc".

(** Derive a subtle border HSL from the active color. *)
Definition deriveBorderHsl (hsl : HSL) (theme : ThemeKind) : HSL :=
  {| h := h hsl;
     s := clamp (s hsl * 0.6) 0 100;
     l := clamp (match theme with
                 | Light => l hsl - 12
                 | _ => l hsl - 6
                 end) 0 100 |}.

(** *** Full title-bar color set *)

(** Build a complete [TitleBarColors] object from a base HSL and theme. *)
Definition titleBarColorsFromHsl (hsl : HSL) (theme : ThemeKind)
  : TitleBarColors :=
  let activeBackground := hslToHex hsl in
  let activeForeground := chooseForeground activeBackground in
  let inactiveBackground := hslToHex (deriveInactiveHsl hsl theme) in
  let inactiveForeground := deriveInactiveForeground activeForeground in
  let border := hslToHex (deriveBorderHsl hsl theme) in
  {| activeBackground := activeBackground;
     activeForeground := activeForeground;
     inactiveBackground := inactiveBackground;
     inactiveForeground := inactiveForeground;
     border := border |}.

(** Generate a random title-bar color set appropriate for [theme]. *)
Definition generateTitleBarColors (theme : ThemeKind) (u0 u1 u2 : Q)
  : TitleBarColors :=
  titleBarColorsFromHsl (generateAppealingHsl theme u0 u1 u2) theme.

(** Generate a title-bar color set anchored to a specific hue. *)
Definition generateTitleBarColorsFromHue
    (Math_PI : Q) (Math_sin : Q -> Q) (hue : Q) (theme : ThemeKind)
  : TitleBarColors :=
  titleBarColorsFromHsl (hslFromHue Math_PI Math_sin hue theme) theme.

(** Generate a deterministic title-bar color set seeded from a string
    (typically the workspace folder path). *)
Definition generateTitleBarColorsFromSeed (seed : string) (theme : ThemeKind)
  : TitleBarColors :=
  let hue := hashStringToHue seed in
  let sFloat := hashStringToFloat seed 1 in
  let lFloat := hashStringToFloat seed 2 in
  let '(s, l) :=
    match theme with
    | Light => (25 + sFloat * 60, 65 + lFloat * 25)%Q
    | HighContrast => (40 + sFloat * 50, 10 + lFloat * 18)%Q
    | Dark => (20 + sFloat * 65, 12 + lFloat * 28)%Q
    end in
  titleBarColorsFromHsl {| h := inject_Z hue; s := s; l := l |} theme.

End ColorGenerator.
Import ColorGenerator.

(** ** title-bar-manager.ts *)

Module TitleBarManager.

(** Keys written to [workbench.colorCustomizations] by this extension. *)
Definition TITLE_BAR_KEYS : list string :=
  [ "titleBar.activeBackground";
    "titleBar.activeForeground";
    "titleBar.inactiveBackground";
    "titleBar.inactiveForeground";
    "titleBar.border" ].

(** Key used to persist the current color set in workspaceState. *)
Definition STATE_KEY : string := "coloredTitleBar.currentColors".

(** [vscode.ColorThemeKind]. *)
Inductive ColorThemeKind : Type :=
| CTLight | CTDark | CTHighContrast | CTHighContrastLight.

(** What the manager reads and writes in the editor: the open
    workspace folders (their URIs), the active theme, the value of
    the setting [workbench.colorCustomizations] ([None] is
    [undefined]), the memento, and the warnings shown. *)
Record Host : Type := mkHost {
  workspaceFolders : option (list string);
  activeColorTheme : ColorThemeKind;
  colorCustomizations : option (gmap string string);
  state : gmap string TitleBarColors;
  warnings : list string
}.

(** Map the current color-theme kind to a simplified [ThemeKind]. *)
Definition getThemeKind (host : Host) : ThemeKind :=
  match activeColorTheme host with
  | CTLight | CTHighContrastLight => Light
  | CTHighContrast => HighContrast
  | CTDark => Dark
  end.

(** Return [true] when the window has at least one workspace folder
    open. *)
Definition hasWorkspace (host : Host) : bool :=
  match workspaceFolders host with
  | Some folders => (0 <? List.length folders)%nat
  | None => false
  end.

(** Return the URI string of the first workspace folder, or
    [undefined] if no folder is open. *)
Definition getWorkspaceSeed (host : Host) : option string :=
  match workspaceFolders host with
  | Some (folder :: _) => Some folder
  | _ => None
  end.

(** Merge the given colors into [workbench.colorCustomizations] and
    persist them in workspaceState. *)
Definition applyColors (colors : TitleBarColors) (host : Host)
  : Host * bool :=
  if negb (hasWorkspace host) then
    ({| workspaceFolders := workspaceFolders host;
        activeColorTheme := activeColorTheme host;
        colorCustomizations := colorCustomizations host;
        state := state host;
        warnings :=
          warnings host ++
          ["Colored Title Bar: Open a folder first — per-window colors require a workspace."] |},
     false)
  else
    let current := default ∅ (colorCustomizations host) in
    let updated :=
      <["titleBar.border" := border colors]>
      (<["titleBar.inactiveForeground" := inactiveForeground colors]>
      (<["titleBar.inactiveBackground" := inactiveBackground colors]>
      (<["titleBar.activeForeground" := activeForeground colors]>
      (<["titleBar.activeBackground" := activeBackground colors]>
       current)))) in
    ({| workspaceFolders := workspaceFolders host;
        activeColorTheme := activeColorTheme host;
        colorCustomizations := Some updated;
        state := <[STATE_KEY := colors]> (state host);
        warnings := warnings host |},
     true).

(** Remove only the title-bar keys added by this extension from
    [workbench.colorCustomizations], leaving other entries intact. *)
Definition resetColors (host : Host) : Host :=
  if negb (hasWorkspace host) then host
  else
    let current := default ∅ (colorCustomizations host) in
    let updated :=
      fold_left (fun updated key => delete key updated)
                TITLE_BAR_KEYS current in
    let value :=
      if (List.length (map_to_list updated).*1 =? 0)%nat
      then None else Some updated in
    {| workspaceFolders := workspaceFolders host;
       activeColorTheme := activeColorTheme host;
       colorCustomizations := value;
       state := delete STATE_KEY (state host);
       warnings := warnings host |}.

(** Check whether we previously applied colors in this workspace. *)
Definition hasSavedColors (host : Host) : bool :=
  bool_decide (is_Some (state host !! STATE_KEY)).

(** Retrieve the previously saved color set, if any. *)
Definition getSavedColors (host : Host) : option TitleBarColors :=
  state host !! STATE_KEY.

End TitleBarManager.
Import TitleBarManager.

(** ** extension.ts *)

Module Extension.

(** The startup part of [activate]; registering the three commands
    before it leaves the host as it is.  [colorOnStartup] is the
    setting [coloredTitleBar.colorOnStartup], and [u0], [u1], [u2] are
    the draws of [Math.random()] a random colour set would consume. *)
Definition activate (colorOnStartup : bool) (u0 u1 u2 : Q) (host : Host)
  : Host :=
  if negb (hasWorkspace host) then host
  else if colorOnStartup then
    let theme := getThemeKind host in
    let colors := generateTitleBarColors theme u0 u1 u2 in
    fst (applyColors colors host)
  else if negb (hasSavedColors host) then
    match getWorkspaceSeed host with
    | Some (String _ _ as seed) =>
        let theme := getThemeKind host in
        let colors := generateTitleBarColorsFromSeed seed theme in
        fst (applyColors colors host)
    | _ => host
    end
  else host.

End Extension.
Import Extension.

(** ** The seeded HSL as the specification words it *)

Module SeededSpec.

(** The per-theme table: (saturation range, lightness range). *)
Definition themeRanges (theme : ThemeKind) : (Q * Q) * (Q * Q) :=
  match theme with
  | Dark => ((20, 85), (12, 40))
  | Light => ((25, 85), (65, 90))
  | HighContrast => ((40, 90), (10, 28))
  end%Q.

(** A unit fraction mapped linearly onto a range. *)
Definition mapLinear (range : Q * Q) (t : Q) : Q :=
  (fst range + t * (snd range - fst range))%Q.

Definition offsetA : Z := 1.
Definition offsetB : Z := 2.

Definition seededHsl (seed : string) (theme : ThemeKind) : HSL :=
  {| h := inject_Z (hashStringToHue seed);
     s := mapLinear (fst (themeRanges theme))
                    (hashStringToFloat seed offsetA);
     l := mapLinear (snd (themeRanges theme))
                    (hashStringToFloat seed offsetB) |}.

(** Saturation and lightness within the theme's tuned ranges. *)
Definition inThemeRanges (theme : ThemeKind) (hsl : HSL) : Prop :=
  (fst (fst (themeRanges theme)) <= s hsl <= snd (fst (themeRanges theme))
   /\ fst (snd (themeRanges theme)) <= l hsl <= snd (snd (themeRanges theme)))%Q.

End SeededSpec.
Import SeededSpec.

(** ** Hex patterns of the test suite *)

(** One of [0-9a-f]. *)
Definition isLowerHexDigit (c : ascii) : bool :=
  let n := N_of_ascii c in
  ((48 <=? n) && (n <=? 57) || (97 <=? n) && (n <=? 102))%N.

Fixpoint allLowerHex (str : string) : bool :=
  match str with
  | EmptyString => true
  | String c rest => isLowerHexDigit c && allLowerHex rest
  end.

(** [#] followed by exactly [n] lowercase hex digits: the pattern
    [/^#[0-9a-f]{n}$/]. *)
Definition isHexColor (n : nat) (str : string) : bool :=
  match str with
  | String "#" digits => (String.length digits =? n)%nat && allLowerHex digits
  | _ => false
  end.

(** The twenty workspace paths of the test suite. *)
Definition projectPaths : list string :=
  map (fun suffix => "/Users/dev/project-" ++ suffix)
      [ "0"; "1"; "2"; "3"; "4"; "5"; "6"; "7"; "8"; "9";
        "10"; "11"; "12"; "13"; "14"; "15"; "16"; "17"; "18"; "19" ].

(** ** Auxiliary definitions of the statements *)

(** The three channels within [0, 255]. *)
Definition channelsInRange (rgb : RGB) : Prop :=
  0 <= r rgb <= 255 /\ 0 <= g rgb <= 255 /\ 0 <= b rgb <= 255.

(** [hex n] is two lowercase digits that [parseInt] reads back as [n]. *)
Definition hexRoundTrips (n : Z) : bool :=
  match hex n with
  | String hi (String lo EmptyString) =>
      isLowerHexDigit hi && isLowerHexDigit lo
      && match JS.parseInt16 (hex n) with
         | Some v => (v =? n)%Z
         | None => false
         end
  | _ => false
  end.

(** The strings of a list without their repetitions. *)
Fixpoint distinct (strs : list string) : list string :=
  match strs with
  | [] => []
  | str :: rest =>
      if existsb (String.eqb str) rest then distinct rest
      else str :: distinct rest
  end.

(** A window without a workspace folder whose effective colour map
    carries a title-bar key. *)
Definition hostWithoutWorkspace : Host :=
  {| workspaceFolders := None;
     activeColorTheme := CTDark;
     colorCustomizations := Some {[ "titleBar.border" := "#112233" ]};
     state := ∅;
     warnings := [] |}.

(** A window with one folder, a title-bar key and a foreign key. *)
Definition hostWithWorkspace : Host :=
  {| workspaceFolders := Some ["file:///Users/dev/project-a"];
     activeColorTheme := CTDark;
     colorCustomizations :=
       Some (<["titleBar.border" := "#112233"]>
               {[ "editor.background" := "#101010" ]});
     state := ∅;
     warnings := [] |}.

(** The sixteen lowercase hex digits. *)
Definition hexChars : list ascii :=
  list_ascii_of_string "0123456789abcdef".

(** Two digits that [parseInt] reads as a channel which [hex] formats
    back into the same two digits. *)
Definition pairRoundTrips (hi lo : ascii) : bool :=
  match JS.parseInt16 (String hi (String lo EmptyString)) with
  | Some n =>
      (0 <=? n)%Z && (n <=? 255)%Z
      && String.eqb (hex n) (String hi (String lo EmptyString))
  | None => false
  end.

(** The hex patterns the test suite checks on a colour set: six digits
    for the two backgrounds, the border and the active foreground,
    eight for the inactive foreground. *)
Definition validColors (colors : TitleBarColors) : bool :=
  isHexColor 6 (activeBackground colors)
  && isHexColor 6 (activeForeground colors)
  && isHexColor 6 (inactiveBackground colors)
  && isHexColor 8 (inactiveForeground colors)
  && isHexColor 6 (border colors).

(** The contrast check of the test suite on a colour set: both active
    colours parse, and their ratio is at least 4.5. *)
Definition readable (colors : TitleBarColors) : Prop :=
  exists bg fg,
    hexToRgb (activeBackground colors) = Some bg
    /\ hexToRgb (activeForeground colors) = Some fg
    /\ (contrastRatio bg fg >= 4.5)%R.

(** Division by a numeral, which [lra] does not read, as a product. *)
Ltac lra_div := unfold Qdiv in *; cbn [Qinv Qnum Qden] in *; lra.

(** ** Checks against the test suite *)

Example clamp_tests :
  (clamp 50 0 100 == 50 /\ clamp (-5) 0 100 == 0
   /\ clamp 150 0 100 == 100 /\ clamp 42 10 10 == 10)%Q.
Proof. repeat split. Qed.

Example hashStringToHue_empty : hashStringToHue "" = 341.
Proof. reflexivity. Qed.

Example hashStringToFloat_offsets :
  hashStringToFloat "test" 1 = (2118 # 10000)%Q
  /\ hashStringToFloat "test" 2 = (8039 # 10000)%Q.
Proof. split; vm_compute; reflexivity. Qed.

Example hslFromHue_normalizes (Math_PI : Q) (Math_sin : Q -> Q) :
  (h (hslFromHue Math_PI Math_sin 400 Dark) == 40
   /\ h (hslFromHue Math_PI Math_sin (-30) Dark) == 330)%Q.
Proof. split; vm_compute; reflexivity. Qed.

Example hslToHex_red : hslToHex {| h := 0; s := 100; l := 50 |} = "#ff0000".
Proof. vm_compute. reflexivity. Qed.

Example hslToRgb_red :
  hslToRgb {| h := 0; s := 100; l := 50 |} = {| r := 255; g := 0; b := 0 |}.
Proof. vm_compute. reflexivity. Qed.

Example hslToRgb_grey :
  hslToRgb {| h := 0; s := 0; l := 50 |} = {| r := 128; g := 128; b := 128 |}.
Proof. vm_compute. reflexivity. Qed.

Example hslToRgb_negative_hue :
  hslToRgb {| h := -60; s := 100; l := 50 |}
  = hslToRgb {| h := 300; s := 100; l := 50 |}.
Proof. vm_compute. reflexivity. Qed.

Example rgbToHex_abcdef :
  rgbToHex {| r := 171; g := 205; b := 239 |} = "#abcdef".
Proof. vm_compute. reflexivity. Qed.

Example hexToRgb_abcdef :
  hexToRgb "#abcdef" = Some {| r := 171; g := 205; b := 239 |}
  /\ hexToRgb "abcdef" = Some {| r := 171; g := 205; b := 239 |}.
Proof. split; vm_compute; reflexivity. Qed.

(** ** The hashes *)

Section HashProperties.

Lemma toInt32_mod (n : Z) : JS.toInt32 n mod 2 ^ 32 = n mod 2 ^ 32.
Proof.
  unfold JS.toInt32.
  rewrite Zminus_mod, Zmod_mod, <- Zminus_mod.
  replace (n + 2 ^ 31 - 2 ^ 31) with n by lia. reflexivity.
Qed.

Lemma ushr_0 (n : Z) : JS.ushr n 0 = n mod 2 ^ 32.
Proof.
  unfold JS.ushr, JS.toUint32.
  change (Z.land (0 mod 2 ^ 32) 31) with 0. apply Z.shiftr_0_r.
Qed.

Lemma shl_5_mod (n : Z) : JS.shl n 5 mod 2 ^ 32 = (32 * n) mod 2 ^ 32.
Proof.
  unfold JS.shl. rewrite toInt32_mod.
  change (Z.land (JS.toUint32 5) 31) with 5.
  rewrite Z.shiftl_mul_pow2 by lia.
  rewrite Zmult_mod, toInt32_mod, <- Zmult_mod.
  f_equal. lia.
Qed.

(** One round of the loop is the DJB2 step [33 * hash + c] on 32 bits. *)
Lemma hash_step (hash c : Z) :
  JS.ushr (JS.shl hash 5 + hash + c) 0 = (33 * hash + c) mod 2 ^ 32.
Proof.
  rewrite ushr_0, <- Z.add_assoc, Zplus_mod, shl_5_mod, <- Zplus_mod.
  f_equal. lia.
Qed.

Lemma hashLoop_range_from (input : string) :
  forall hash, 0 <= hash < 2 ^ 32 -> 0 <= hashLoop hash input < 2 ^ 32.
Proof.
  induction input as [|c rest IH]; intros hash Hh; simpl.
  - exact Hh.
  - apply IH. rewrite hash_step. apply Z.mod_pos_bound. lia.
Qed.

Lemma hashLoop_range_nonempty (input : string) (hash : Z) :
  input <> "" -> 0 <= hashLoop hash input < 2 ^ 32.
Proof.
  destruct input as [|c rest]; intros Hne; [congruence|]. simpl.
  apply hashLoop_range_from. rewrite hash_step.
  apply Z.mod_pos_bound. lia.
Qed.

(** The hue hash lands in [0, 360) for every string. *)
Lemma hashStringToHue_range (input : string) :
  0 <= hashStringToHue input < 360.
Proof.
  unfold hashStringToHue, JS.remZ.
  apply Z.rem_bound_pos; [|lia].
  apply (hashLoop_range_from input 5381). lia.
Qed.

Lemma unit_fraction (n : Z) :
  0 <= n < 10000 -> (0 <= inject_Z n / 10000 < 1)%Q.
Proof.
  intros Hn. unfold Qle, Qlt, Qdiv, Qmult, Qinv, inject_Z. simpl. lia.
Qed.

(** The fraction hash lands in [0, 1) as soon as the loop runs once or
    the initial value [5381 + seed] is not negative. *)
Lemma hashStringToFloat_range (input : string) (seed : Z) :
  input <> "" \/ -5381 <= seed ->
  (0 <= hashStringToFloat input seed < 1)%Q.
Proof.
  intros Hdom. unfold hashStringToFloat, JS.remZ.
  apply unit_fraction. apply Z.rem_bound_pos; [|lia].
  destruct Hdom as [Hne|Hseed].
  - apply (hashLoop_range_nonempty input (5381 + seed) Hne).
  - destruct input as [|c rest]; [simpl; lia|].
    apply hashLoop_range_nonempty. congruence.
Qed.

(** C7, at the input where the code leaves the documented range: with
    the empty string the loop never runs, so the initial value
    [5381 + seed] reaches [%] unnormalised, and for the offset [-5382]
    the result is [-1/10000], below the interval [0, 1). *)
Theorem hashStringToFloat_empty_negative_offset :
  hashStringToFloat "" (-5382) = (-1 # 10000)%Q
  /\ ~ (0 <= hashStringToFloat "" (-5382))%Q.
Proof.
  split.
  - reflexivity.
  - vm_compute. intros H. apply H. reflexivity.
Qed.

End HashProperties.

(** ** Seeded generation *)

Section SeededGeneration.

Lemma activeBackground_fromSeed (seed : string) (theme : ThemeKind) :
  activeBackground (generateTitleBarColorsFromSeed seed theme)
  = hslToHex (seededHsl seed theme).
Proof. destruct theme; reflexivity. Qed.

(** The seed enters the colour set through its three hashes only. *)
Lemma fromSeed_hashes (s1 s2 : string) (theme : ThemeKind) :
  hashStringToHue s1 = hashStringToHue s2 ->
  hashStringToFloat s1 1 = hashStringToFloat s2 1 ->
  hashStringToFloat s1 2 = hashStringToFloat s2 2 ->
  generateTitleBarColorsFromSeed s1 theme
  = generateTitleBarColorsFromSeed s2 theme.
Proof.
  intros Hhue Hs Hl. unfold generateTitleBarColorsFromSeed.
  rewrite Hhue, Hs, Hl. reflexivity.
Qed.

Lemma projectPaths_backgrounds :
  (15 <= List.length
           (distinct
              (map (fun p =>
                      activeBackground
                        (generateTitleBarColorsFromSeed p Dark))
                   projectPaths)))%nat.
Proof.
  erewrite map_ext by (intros p; apply activeBackground_fromSeed).
  vm_compute. lia.
Qed.

(** C2 (where it fails): the two-character
    seeds [Aa] and [B@] differ, yet 33 * 65 + 97 = 33 * 66 + 64, so
    all three hashes agree and both seeds get the same colour set in
    every theme. *)
Lemma distinct_seeds_same_colors :
  "Aa" <> "B@"
  /\ forall theme,
       generateTitleBarColorsFromSeed "Aa" theme
       = generateTitleBarColorsFromSeed "B@" theme.
Proof.
  split; [discriminate|].
  intros theme. apply fromSeed_hashes; reflexivity.
Qed.

(** C2, amended: two calls on the same seed and theme return identical
    colour sets; the result depends on the seed only through
    [hashStringToHue seed], [hashStringToFloat seed 1] and
    [hashStringToFloat seed 2], so seeds on which these agree share
    their colours; and the twenty workspace paths of the test suite
    yield at least 15 distinct active backgrounds in the dark theme. *)
Theorem generateTitleBarColorsFromSeed_deterministic :
  (forall seed theme c1 c2,
      c1 = generateTitleBarColorsFromSeed seed theme ->
      c2 = generateTitleBarColorsFromSeed seed theme ->
      c1 = c2)
  /\ (forall s1 s2 theme,
        hashStringToHue s1 = hashStringToHue s2 ->
        hashStringToFloat s1 1 = hashStringToFloat s2 1 ->
        hashStringToFloat s1 2 = hashStringToFloat s2 2 ->
        generateTitleBarColorsFromSeed s1 theme
        = generateTitleBarColorsFromSeed s2 theme)
  /\ (15 <= List.length
              (distinct
                 (map (fun p =>
                         activeBackground
                           (generateTitleBarColorsFromSeed p Dark))
                      projectPaths)))%nat.
Proof.
  split; [|split].
  - intros seed theme c1 c2 -> ->. reflexivity.
  - exact fromSeed_hashes.
  - exact projectPaths_backgrounds.
Qed.

Lemma generateTitleBarColorsFromSeed_deterministic_witness :
  generateTitleBarColorsFromSeed "my-workspace" Dark
  = generateTitleBarColorsFromSeed "my-workspace" Dark
  /\ generateTitleBarColorsFromSeed "Aa" Light
     = generateTitleBarColorsFromSeed "B@" Light.
Proof.
  destruct generateTitleBarColorsFromSeed_deterministic as [Hsame [Hhash _]].
  split.
  - apply (Hsame "my-workspace" Dark); reflexivity.
  - apply (Hhash "Aa" "B@" Light); reflexivity.
Defined.

(** C3: the seeded entry point is the assembler applied to the HSL
    whose hue is [hashStringToHue seed] and whose saturation and
    lightness are [hashStringToFloat seed 1] and
    [hashStringToFloat seed 2] mapped linearly onto the theme's
    ranges of the table. *)
Theorem generateTitleBarColorsFromSeed_seededHsl
    (seed : string) (theme : ThemeKind) :
  generateTitleBarColorsFromSeed seed theme
  = titleBarColorsFromHsl (seededHsl seed theme) theme.
Proof. destruct theme; reflexivity. Qed.

(** The wave of [hslFromHue] keeps the dark saturation within 20-60,
    whatever hue it is given; the seed ["a"] gets 70.07. *)
Lemma hslFromHue_dark_saturation
    (Math_PI : Q) (Math_sin : Q -> Q) (hue : Q) :
  (forall x, -1 <= Math_sin x <= 1)%Q ->
  (20 <= s (hslFromHue Math_PI Math_sin hue Dark) <= 60)%Q.
Proof.
  intros Hsin. unfold hslFromHue. cbn [s].
  match goal with |- context [Math_sin ?x] =>
    specialize (Hsin x); set (wave := Math_sin x) in * end.
  lra.
Qed.

Lemma seededHsl_outside_wave
    (Math_PI : Q) (Math_sin : Q -> Q) (hue : Q) :
  (forall x, -1 <= Math_sin x <= 1)%Q ->
  (s (hslFromHue Math_PI Math_sin hue Dark) < s (seededHsl "a" Dark))%Q.
Proof.
  intros Hsin.
  pose proof (hslFromHue_dark_saturation Math_PI Math_sin hue Hsin) as Hw.
  apply Qle_lt_trans with (y := 60%Q); [apply Hw|].
  vm_compute. reflexivity.
Qed.

End SeededGeneration.

(** ** Foregrounds *)

Section Foregrounds.

Lemma chooseForeground_cases (backgroundHex : string) :
  chooseForeground backgroundHex = "#ffffff"
  \/ chooseForeground backgroundHex = "#000000".
Proof.
  unfold chooseForeground.
  destruct (hexToRgb backgroundHex) as [bg|]; [|now right].
  destruct (Rge_dec _ _); [now left|now right].
Qed.

Lemma length_append (a b : string) :
  String.length (a ++ b) = (String.length a + String.length b)%nat.
Proof. induction a as [|c a IH]; simpl; [reflexivity|now rewrite IH]. Qed.

Lemma allLowerHex_append (a b : string) :
  allLowerHex (a ++ b) = allLowerHex a && allLowerHex b.
Proof.
  induction a as [|c a IH]; simpl; [reflexivity|].
  rewrite IH. apply andb_assoc.
Qed.

(** Two more digits turn an [n]-digit colour into an [n + 2]-digit one. *)
Lemma isHexColor_append_cc (n : nat) (str : string) :
  isHexColor n str = true -> isHexColor (n + 2) (str ++ "cc") = true.
Proof.
  destruct str as [|c digits]; [discriminate|].
  unfold isHexColor. simpl.
  destruct c as [[] [] [] [] [] [] [] []]; try discriminate.
  intros H. apply andb_true_iff in H as [Hlen Hhex].
  apply Nat.eqb_eq in Hlen.
  rewrite length_append, allLowerHex_append, Hhex, Hlen. simpl.
  now rewrite Nat.eqb_refl.
Qed.

(** C5: whatever the base HSL and the theme, the active foreground is
    [#ffffff] or [#000000], and the inactive foreground is the active
    one followed by the two-digit alpha suffix, eight hex digits after
    the [#] in all. *)
Theorem titleBarColorsFromHsl_foregrounds (hsl : HSL) (theme : ThemeKind) :
  let colors := titleBarColorsFromHsl hsl theme in
  (activeForeground colors = "#ffffff"
   \/ activeForeground colors = "#000000")
  /\ inactiveForeground colors = activeForeground colors ++ "cc"
  /\ isHexColor 8 (inactiveForeground colors) = true.
Proof.
  cbn [titleBarColorsFromHsl activeForeground inactiveForeground].
  unfold deriveInactiveForeground.
  destruct (chooseForeground_cases (hslToHex hsl)) as [-> | ->];
    (split; [auto|split; reflexivity]).
Qed.

(** C6: on a six-digit foreground, [deriveInactiveForeground] returns
    that string followed by [cc], an eight-digit colour. *)
Theorem deriveInactiveForeground_appends_cc (activeForeground : string) :
  isHexColor 6 activeForeground = true ->
  deriveInactiveForeground activeForeground = activeForeground ++ "cc"
  /\ isHexColor 8 (deriveInactiveForeground activeForeground) = true.
Proof.
  intros Hhex. split; [reflexivity|].
  apply (isHexColor_append_cc 6 activeForeground Hhex).
Qed.

Lemma deriveInactiveForeground_appends_cc_witness :
  isHexColor 6 "#ffffff" = true
  /\ deriveInactiveForeground "#ffffff" = "#ffffffcc"
  /\ isHexColor 8 (deriveInactiveForeground "#ffffff") = true.
Proof.
  split; [reflexivity|].
  apply (deriveInactiveForeground_appends_cc "#ffffff"). reflexivity.
Defined.

End Foregrounds.

(** ** Derived colours *)

Section DerivedColors.

Lemma clamp_cases (value lo hi : Q) :
  (lo <= hi)%Q ->
  ((value <= lo /\ clamp value lo hi == lo)
   \/ (lo <= value <= hi /\ clamp value lo hi == value)
   \/ (hi <= value /\ clamp value lo hi == hi))%Q.
Proof.
  intros Hlohi. unfold clamp.
  destruct (Q.max_spec value lo) as [[Hlt Hmax]|[Hle Hmax]];
    destruct (Q.min_spec (Qmax value lo) hi) as [[Hlt' Hmin]|[Hle' Hmin]];
    first [ left; split; lra
          | right; left; split; lra
          | right; right; split; lra ].
Qed.

Lemma clamp_range (value lo hi : Q) :
  (lo <= hi)%Q -> (lo <= clamp value lo hi <= hi)%Q.
Proof.
  intros Hlohi.
  destruct (clamp_cases value lo hi Hlohi) as [[H E]|[[H E]|[H E]]];
    rewrite E; lra.
Qed.

(** Below a positive lightness the border is strictly darker, in
    every theme; at lightness 0 the clamp keeps it at 0. *)
Lemma deriveBorderHsl_lightness (hsl : HSL) (theme : ThemeKind) :
  (0 < l hsl)%Q -> (l (deriveBorderHsl hsl theme) < l hsl)%Q.
Proof.
  intros Hpos. unfold deriveBorderHsl. cbn [l].
  match goal with |- (clamp ?v _ _ < _)%Q =>
    destruct (clamp_cases v 0 100 ltac:(lra)) as [[H E]|[[H E]|[H E]]]
  end; rewrite E; destruct theme; lra.
Qed.

(** C8 (where it fails): for black, well inside the declared ranges,
    the dark-theme border has lightness [clamp(-6, 0, 100) = 0], which
    is not below the active lightness 0. *)
Lemma deriveBorderHsl_black_not_darker :
  let hsl := {| h := 0; s := 0; l := 0 |} in
  ((0 <= h hsl < 360 /\ 0 <= s hsl <= 100 /\ 0 <= l hsl <= 100)
   /\ l (deriveBorderHsl hsl Dark) == 0
   /\ ~ l (deriveBorderHsl hsl Dark) < l hsl)%Q.
Proof.
  cbv zeta. split; [|split].
  - cbn [h s l]. lra.
  - vm_compute. reflexivity.
  - vm_compute. discriminate.
Qed.

(** C8, amended: for an HSL with h in [0, 360), s in [0, 100] and l in
    (0, 100], in the dark and the light theme, the border keeps the
    hue and is strictly darker than the active background. *)
Theorem deriveBorderHsl_darker (hsl : HSL) (theme : ThemeKind) :
  (0 <= h hsl < 360)%Q -> (0 <= s hsl <= 100)%Q ->
  (0 < l hsl <= 100)%Q ->
  theme = Dark \/ theme = Light ->
  h (deriveBorderHsl hsl theme) = h hsl
  /\ (l (deriveBorderHsl hsl theme) < l hsl)%Q.
Proof.
  intros _ _ [Hpos _] _. split; [reflexivity|].
  apply deriveBorderHsl_lightness, Hpos.
Qed.

Lemma deriveBorderHsl_darker_witness :
  let hsl := {| h := 220; s := 60; l := 78 |} in
  h (deriveBorderHsl hsl Light) = 220%Q
  /\ (l (deriveBorderHsl hsl Light) < 78)%Q.
Proof.
  apply (deriveBorderHsl_darker {| h := 220; s := 60; l := 78 |} Light);
    cbn [h s l]; try lra.
  right; reflexivity.
Defined.

End DerivedColors.

(** ** Resetting the title-bar keys *)

Section ResetColors.

(** The [for ... delete] loop removes the listed keys and nothing else. *)
Lemma lookup_delete_keys (keys : list string) :
  forall (updated : gmap string string) (key : string),
    fold_left (fun updated key => delete key updated) keys updated !! key
    = if decide (key ∈ keys) then None else updated !! key.
Proof.
  induction keys as [|k keys IH]; intros updated key; simpl.
  - reflexivity.
  - rewrite IH. repeat case_decide; try reflexivity.
    + exfalso. set_solver.
    + assert (key = k) as -> by set_solver. apply lookup_delete_eq.
    + apply lookup_delete_ne. set_solver.
Qed.

Lemma no_keys_empty (updated : gmap string string) :
  (List.length (map_to_list updated).*1 =? 0)%nat = true <-> updated = ∅.
Proof.
  rewrite Nat.eqb_eq, length_fmap. split.
  - intros Hlen. apply map_to_list_empty_iff. now apply nil_length_inv.
  - intros ->. now rewrite map_to_list_empty.
Qed.

Lemma border_is_title_bar_key : "titleBar.border" ∈ TITLE_BAR_KEYS.
Proof. unfold TITLE_BAR_KEYS. set_solver. Qed.

Lemma editor_background_is_foreign : "editor.background" ∉ TITLE_BAR_KEYS.
Proof. unfold TITLE_BAR_KEYS. set_solver. Qed.

(** C9 (where it fails): with no workspace folder open [resetColors]
    returns before touching the setting, and the title-bar key of the
    map stays. *)
Lemma resetColors_without_workspace_keeps_keys :
  "titleBar.border" ∈ TITLE_BAR_KEYS
  /\ resetColors hostWithoutWorkspace = hostWithoutWorkspace
  /\ default ∅ (colorCustomizations (resetColors hostWithoutWorkspace))
       !! "titleBar.border" = Some "#112233".
Proof.
  split; [|split].
  - exact border_is_title_bar_key.
  - reflexivity.
  - vm_compute. reflexivity.
Qed.

(** C9, amended: when a workspace folder is open, [resetColors] writes
    a map in which the five title-bar keys are absent and every other
    key has the value it had, and it writes [undefined], never an
    empty map, exactly when no other key was present. *)
Theorem resetColors_removes_title_bar_keys (host : Host) :
  hasWorkspace host = true ->
  let current := default ∅ (colorCustomizations host) in
  let written := colorCustomizations (resetColors host) in
  (forall key, key ∈ TITLE_BAR_KEYS -> default ∅ written !! key = None)
  /\ (forall key, key ∉ TITLE_BAR_KEYS ->
                  default ∅ written !! key = current !! key)
  /\ written <> Some ∅
  /\ (written = None <->
      forall key, key ∉ TITLE_BAR_KEYS -> current !! key = None).
Proof.
  intros Hws current written. subst written. unfold resetColors.
  rewrite Hws. cbn [negb colorCustomizations]. fold current.
  set (updated := fold_left _ TITLE_BAR_KEYS current).
  assert (Hlookup : forall key,
             updated !! key
             = if decide (key ∈ TITLE_BAR_KEYS) then None
               else current !! key)
    by (intros key; apply lookup_delete_keys).
  destruct (List.length (map_to_list updated).*1 =? 0)%nat eqn:Hkeys.
  - apply no_keys_empty in Hkeys. cbn [default].
    split; [|split; [|split; [|split]]].
    + intros key _. apply lookup_empty.
    + intros key Hout. rewrite lookup_empty.
      specialize (Hlookup key). rewrite Hkeys, lookup_empty in Hlookup.
      now rewrite decide_False in Hlookup by exact Hout.
    + discriminate.
    + intros _ key Hout. specialize (Hlookup key).
      rewrite Hkeys, lookup_empty in Hlookup.
      now rewrite decide_False in Hlookup by exact Hout.
    + reflexivity.
  - cbn [default]. split; [|split; [|split; [|split]]].
    + intros key Hin. rewrite Hlookup. now rewrite decide_True by exact Hin.
    + intros key Hout. rewrite Hlookup.
      now rewrite decide_False by exact Hout.
    + intros [= Hempty]. apply no_keys_empty in Hempty. congruence.
    + discriminate.
    + intros Hnone. exfalso.
      assert (updated = ∅) as Hempty.
      { apply map_eq. intros key. rewrite Hlookup, lookup_empty.
        case_decide; [reflexivity|now apply Hnone]. }
      apply no_keys_empty in Hempty. congruence.
Qed.

Lemma resetColors_removes_title_bar_keys_witness :
  hasWorkspace hostWithWorkspace = true
  /\ default ∅ (colorCustomizations (resetColors hostWithWorkspace))
       !! "titleBar.border" = None
  /\ default ∅ (colorCustomizations (resetColors hostWithWorkspace))
       !! "editor.background" = Some "#101010".
Proof.
  pose proof (resetColors_removes_title_bar_keys hostWithWorkspace eq_refl)
    as Hreset.
  cbv zeta in Hreset. destruct Hreset as (Hin & Hout & _ & _).
  split; [reflexivity|split].
  - apply Hin, border_is_title_bar_key.
  - rewrite Hout; [vm_compute; reflexivity|].
    apply editor_background_is_foreign.
Defined.

End ResetColors.

(** ** HSL to RGB *)

Section HslToRgb.

Lemma Qtrunc_nonneg (q : Q) :
  (0 <= q)%Q -> (inject_Z (JS.Qtrunc q) <= q < inject_Z (JS.Qtrunc q) + 1)%Q.
Proof.
  destruct q as [n d]. unfold JS.Qtrunc, Qle, Qlt, Qplus, inject_Z. cbn.
  intros Hn. rewrite Z.mul_1_r in Hn.
  pose proof (Z.quot_rem' n (Z.pos d)) as Hqr.
  pose proof (Z.rem_bound_pos n (Z.pos d) Hn ltac:(lia)) as Hr.
  nia.
Qed.

Lemma Qtrunc_nonpos (q : Q) :
  (q <= 0)%Q -> (inject_Z (JS.Qtrunc q) - 1 < q <= inject_Z (JS.Qtrunc q))%Q.
Proof.
  destruct q as [n d]. unfold JS.Qtrunc, Qle, Qlt, Qminus, Qplus, Qopp, inject_Z. cbn.
  intros Hn. rewrite Z.mul_1_r in Hn.
  pose proof (Z.quot_rem' n (Z.pos d)) as Hqr.
  pose proof (Z.rem_nonpos n (Z.pos d) ltac:(lia) Hn) as Hr.
  pose proof (Z.rem_bound_abs n (Z.pos d) ltac:(lia)) as Hr'.
  nia.
Qed.

Lemma fmod_nonneg (a b : Q) :
  (0 < b)%Q -> (0 <= a)%Q -> (0 <= JS.fmod a b < b)%Q.
Proof.
  intros Hb Ha. unfold JS.fmod.
  assert (Hq : (0 <= a / b)%Q).
  { apply Qle_shift_div_l; [exact Hb|]. lra. }
  pose proof (Qtrunc_nonneg (a / b) Hq) as Ht.
  assert (Ha' : (a == b * (a / b))%Q) by (field; lra).
  set (q := (a / b)%Q) in *. set (t := inject_Z (JS.Qtrunc q)) in *.
  clearbody t q. nra.
Qed.

Lemma fmod_bounds (a b : Q) :
  (0 < b)%Q -> (- b < JS.fmod a b < b)%Q.
Proof.
  intros Hb. destruct (Qlt_le_dec a 0) as [Ha|Ha].
  - unfold JS.fmod.
    assert (Hq : (a / b <= 0)%Q).
    { apply Qle_shift_div_r; [exact Hb|]. lra. }
    pose proof (Qtrunc_nonpos (a / b) Hq) as Ht.
    assert (Ha' : (a == b * (a / b))%Q) by (field; lra).
    set (q := (a / b)%Q) in *. set (t := inject_Z (JS.Qtrunc q)) in *.
    clearbody t q. nra.
  - pose proof (fmod_nonneg a b Hb Ha). lra.
Qed.

(** The hue normalisation lands in [0, 360) whatever the hue. *)
Lemma normalized_hue_range (hue : Q) :
  (0 <= JS.fmod (JS.fmod hue 360 + 360) 360 < 360)%Q.
Proof.
  pose proof (fmod_bounds hue 360 ltac:(lra)) as H1.
  apply fmod_nonneg; lra.
Qed.

Lemma one_minus_abs_lightness (ln : Q) :
  (0 <= ln <= 1)%Q ->
  (0 <= 1 - Qabs (2 * ln - 1)
   /\ 1 - Qabs (2 * ln - 1) <= 2 * ln
   /\ 1 - Qabs (2 * ln - 1) <= 2 - 2 * ln)%Q.
Proof. intros Hln. apply Qabs_case; intros Hsign; lra. Qed.

Lemma one_minus_abs_sector (k : Q) :
  (0 <= k <= 2)%Q -> (0 <= 1 - Qabs (k - 1) <= 1)%Q.
Proof. intros Hk. apply Qabs_case; intros Hsign; lra. Qed.

(** A component in [0, 1] scales and rounds to a channel in [0, 255]. *)
Lemma round_channel (v : Q) :
  (0 <= v <= 1)%Q -> 0 <= JS.round (v * 255) <= 255.
Proof.
  intros Hv. unfold JS.round. split.
  - apply (Qfloor_resp_le 0 (v * 255 + (1 # 2))). lra.
  - apply (Qfloor_resp_le (v * 255 + (1 # 2)) (511 # 2)). lra.
Qed.

Lemma hslToRgb_range (hsl : HSL) :
  (0 <= s hsl <= 100)%Q -> (0 <= l hsl <= 100)%Q ->
  channelsInRange (hslToRgb hsl).
Proof.
  intros Hs Hl. unfold hslToRgb.
  pose proof (normalized_hue_range (h hsl)) as Hhn.
  set (hn := JS.fmod (JS.fmod (h hsl) 360 + 360) 360) in *.
  clearbody hn.
  assert (Hk : (0 <= JS.fmod (hn / 60) 2 <= 2)%Q).
  { assert (Hpos : (0 <= hn / 60)%Q) by lra_div.
    pose proof (fmod_nonneg (hn / 60) 2 ltac:(lra) Hpos). lra. }
  pose proof (one_minus_abs_sector _ Hk) as Hsector.
  set (sector := (1 - Qabs (JS.fmod (hn / 60) 2 - 1))%Q) in *.
  set (ln := (l hsl / 100)%Q). set (sn := (s hsl / 100)%Q).
  assert (Hln : (0 <= ln <= 1)%Q) by (unfold ln; lra_div).
  assert (Hsn : (0 <= sn <= 1)%Q) by (unfold sn; lra_div).
  pose proof (one_minus_abs_lightness ln Hln) as (Ha0 & Ha1 & Ha2).
  set (a := (1 - Qabs (2 * ln - 1))%Q) in *.
  set (c := (a * sn)%Q). set (x := (c * sector)%Q).
  set (m := (ln - c / 2)%Q).
  assert (Hc : (0 <= c <= a)%Q) by (unfold c; clearbody a sn; nra).
  assert (Hx : (0 <= x <= c)%Q) by (unfold x; clearbody c sector; nra).
  assert (Hm : (0 <= m /\ m + c <= 1)%Q) by (unfold m; lra_div).
  clearbody sector a c x m.
  repeat match goal with
         | |- context [if ?t then _ else _] => destruct t
         end;
    (unfold channelsInRange; cbn [r g b];
     split; [|split]; apply round_channel; lra).
Qed.

(** C4 (where it fails): a lightness of 200 is a real number like any
    other; with it [ln = 2], [c = 0] and [m = 2], and every channel is
    [round(2 * 255) = 510], outside [0, 255]. *)
Lemma hslToRgb_lightness_200 :
  hslToRgb {| h := 0; s := 0; l := 200 |}
  = {| r := 510; g := 510; b := 510 |}
  /\ ~ channelsInRange (hslToRgb {| h := 0; s := 0; l := 200 |}).
Proof.
  split; [vm_compute; reflexivity|].
  unfold channelsInRange. vm_compute. intros [[_ Hr] _]. apply Hr.
  reflexivity.
Qed.

(** C4, amended: for every hue, and saturation and lightness within
    [0, 100] as the HSL type declares them, [hslToRgb] returns three
    integer channels within [0, 255]; it is a total function. *)
Theorem hslToRgb_channels (hsl : HSL) :
  (0 <= s hsl <= 100)%Q -> (0 <= l hsl <= 100)%Q ->
  0 <= r (hslToRgb hsl) <= 255
  /\ 0 <= g (hslToRgb hsl) <= 255
  /\ 0 <= b (hslToRgb hsl) <= 255.
Proof. intros Hs Hl. exact (hslToRgb_range hsl Hs Hl). Qed.

Lemma hslToRgb_channels_witness :
  let hsl := {| h := -60; s := 100; l := 50 |} in
  0 <= r (hslToRgb hsl) <= 255
  /\ 0 <= g (hslToRgb hsl) <= 255
  /\ 0 <= b (hslToRgb hsl) <= 255.
Proof.
  apply (hslToRgb_channels {| h := -60; s := 100; l := 50 |});
    cbn [s l]; lra.
Defined.
End HslToRgb.

(** ** Hex strings of in-range colours *)

Section HexRoundTrip.

Lemma hexRoundTrips_all :
  forallb hexRoundTrips (map Z.of_nat (seq 0 256)) = true.
Proof. vm_compute. reflexivity. Qed.

Lemma hex_channel (n : Z) :
  0 <= n <= 255 ->
  exists hi lo,
    hex n = String hi (String lo EmptyString)
    /\ isLowerHexDigit hi = true /\ isLowerHexDigit lo = true
    /\ JS.parseInt16 (String hi (String lo EmptyString)) = Some n.
Proof.
  intros Hn.
  pose proof hexRoundTrips_all as Hall.
  rewrite forallb_forall in Hall.
  assert (Hin : In n (map Z.of_nat (seq 0 256))).
  { apply in_map_iff. exists (Z.to_nat n). split; [lia|].
    apply in_seq. lia. }
  specialize (Hall n Hin). unfold hexRoundTrips in Hall.
  destruct (hex n) as [|hi [|lo [|]]] eqn:Hhex; try discriminate.
  apply andb_true_iff in Hall as [Hdigits Hparse].
  apply andb_true_iff in Hdigits as [Hhi Hlo].
  exists hi, lo. repeat split; try assumption.
  destruct (JS.parseInt16 _) as [v|]; [|discriminate].
  apply Z.eqb_eq in Hparse. now subst v.
Qed.

(** Parsing inverts formatting on the channels a colour can have. *)
Lemma hexToRgb_rgbToHex (rgb : RGB) :
  channelsInRange rgb -> hexToRgb (rgbToHex rgb) = Some rgb.
Proof.
  destruct rgb as [cr cg cb]. unfold channelsInRange. cbn [r g b].
  intros (Hr & Hg & Hb).
  destruct (hex_channel cr Hr) as (r1 & r2 & Er & _ & _ & Pr).
  destruct (hex_channel cg Hg) as (g1 & g2 & Eg & _ & _ & Pg).
  destruct (hex_channel cb Hb) as (b1 & b2 & Eb & _ & _ & Pb).
  unfold rgbToHex, hexToRgb. cbn [r g b]. rewrite Er, Eg, Eb.
  cbv [String.append JS.stripHash JS.slice substring Nat.sub].
  now rewrite Pr, Pg, Pb.
Qed.

(** The formatted colour is [#] and six lowercase hex digits. *)
Lemma rgbToHex_isHexColor (rgb : RGB) :
  channelsInRange rgb -> isHexColor 6 (rgbToHex rgb) = true.
Proof.
  destruct rgb as [cr cg cb]. unfold channelsInRange. cbn [r g b].
  intros (Hr & Hg & Hb).
  destruct (hex_channel cr Hr) as (r1 & r2 & Er & Hr1 & Hr2 & _).
  destruct (hex_channel cg Hg) as (g1 & g2 & Eg & Hg1 & Hg2 & _).
  destruct (hex_channel cb Hb) as (b1 & b2 & Eb & Hb1 & Hb2 & _).
  unfold rgbToHex. cbn [r g b]. rewrite Er, Eg, Eb.
  cbv [String.append isHexColor String.length allLowerHex Nat.eqb].
  now rewrite Hr1, Hr2, Hg1, Hg2, Hb1, Hb2.
Qed.

End HexRoundTrip.

(** ** Contrast of the chosen foreground *)

Section Contrast.

Local Open Scope R_scope.

Lemma Rpower_one (y : R) : Rpower 1 y = 1.
Proof. unfold Rpower. now rewrite ln_1, Rmult_0_r, exp_0. Qed.

Lemma linearize_range (c : Z) :
  (0 <= c <= 255)%Z -> 0 <= linearize c <= 1.
Proof.
  intros [Hlo Hhi]. apply IZR_le in Hlo, Hhi.
  unfold linearize. set (x := IZR c) in *.
  destruct (Rle_dec (x / 255) 0.03928) as [Hsmall|Hlarge].
  - lra.
  - assert (Hbase : 0 < (x / 255 + 0.055) / 1.055 <= 1) by lra.
    split.
    + left. unfold Rpower. apply exp_pos.
    + rewrite <- (Rpower_one 2.4). apply Rle_Rpower_l; lra.
Qed.

Lemma linearize_0 : linearize 0 = 0.
Proof.
  unfold linearize. destruct (Rle_dec (0 / 255) 0.03928); lra.
Qed.

Lemma linearize_255 : linearize 255 = 1.
Proof.
  unfold linearize. destruct (Rle_dec (255 / 255) 0.03928); [lra|].
  replace ((255 / 255 + 0.055) / 1.055) with 1 by lra.
  apply Rpower_one.
Qed.

(** The luminance of an in-range colour lies in [0, 1]. *)
Lemma relativeLuminance_range (rgb : RGB) :
  channelsInRange rgb -> 0 <= relativeLuminance rgb <= 1.
Proof.
  intros (Hr & Hg & Hb). unfold relativeLuminance.
  pose proof (linearize_range _ Hr). pose proof (linearize_range _ Hg).
  pose proof (linearize_range _ Hb). lra.
Qed.

Lemma relativeLuminance_white : relativeLuminance white = 1.
Proof.
  unfold relativeLuminance, white. cbn [r g b].
  rewrite linearize_255. lra.
Qed.

Lemma relativeLuminance_black : relativeLuminance black = 0.
Proof.
  unfold relativeLuminance, black. cbn [r g b].
  rewrite linearize_0. lra.
Qed.

Lemma contrastRatio_white (bg : RGB) :
  channelsInRange bg ->
  contrastRatio bg white = 1.05 / (relativeLuminance bg + 0.05).
Proof.
  intros Hbg. pose proof (relativeLuminance_range bg Hbg) as [_ Hhi].
  unfold contrastRatio. rewrite relativeLuminance_white.
  rewrite Rmax_right, Rmin_left by assumption.
  f_equal. lra.
Qed.

Lemma contrastRatio_black (bg : RGB) :
  channelsInRange bg ->
  contrastRatio bg black = (relativeLuminance bg + 0.05) / 0.05.
Proof.
  intros Hbg. pose proof (relativeLuminance_range bg Hbg) as [Hlo _].
  unfold contrastRatio. rewrite relativeLuminance_black.
  rewrite Rmax_left, Rmin_right by assumption.
  f_equal. lra.
Qed.

(** Whichever of the two ratios is the larger is at least 4.58: their
    product is 21, so the larger is at least the square root of 21. *)
Lemma best_contrast (bg : RGB) :
  channelsInRange bg ->
  (contrastRatio bg white >= contrastRatio bg black ->
   contrastRatio bg white >= 4.58)
  /\ (~ contrastRatio bg white >= contrastRatio bg black ->
      contrastRatio bg black >= 4.58).
Proof.
  intros Hbg. pose proof (relativeLuminance_range bg Hbg) as [Hlo Hhi].
  rewrite contrastRatio_white, contrastRatio_black by assumption.
  set (d := relativeLuminance bg + 0.05) in *.
  assert (Hd : 0.05 <= d <= 1.05) by (unfold d; lra).
  assert (Hw : 1.05 / d * d = 1.05) by (field; lra).
  assert (Hb : d / 0.05 = 20 * d) by lra.
  set (cw := 1.05 / d) in *. rewrite Hb. clearbody cw d.
  split; intros Hcmp; nra.
Qed.

(** On the hex string of an in-range colour [chooseForeground] sees
    that colour again and compares its two ratios. *)
Lemma chooseForeground_rgbToHex (rgb : RGB) :
  channelsInRange rgb ->
  chooseForeground (rgbToHex rgb)
  = if Rge_dec (contrastRatio rgb white) (contrastRatio rgb black)
    then "#ffffff"%string else "#000000"%string.
Proof.
  intros Hrgb. unfold chooseForeground.
  now rewrite (hexToRgb_rgbToHex rgb Hrgb).
Qed.

Lemma hexToRgb_white : hexToRgb "#ffffff" = Some white.
Proof. vm_compute. reflexivity. Qed.

Lemma hexToRgb_black : hexToRgb "#000000" = Some black.
Proof. vm_compute. reflexivity. Qed.

Lemma chosen_contrast (rgb : RGB) :
  channelsInRange rgb ->
  exists fg,
    hexToRgb (chooseForeground (rgbToHex rgb)) = Some fg
    /\ contrastRatio rgb fg >= 4.58.
Proof.
  intros Hrgb. rewrite (chooseForeground_rgbToHex rgb Hrgb).
  destruct (best_contrast rgb Hrgb) as [Hwhite Hblack].
  destruct (Rge_dec _ _) as [Hge|Hlt].
  - exists white. split; [exact hexToRgb_white|now apply Hwhite].
  - exists black. split; [exact hexToRgb_black|now apply Hblack].
Qed.

(** C10: for every background with three integer channels in
    [0, 255], the foreground that [chooseForeground] returns for its
    hex string has a contrast ratio of at least 4.5 against it. *)
Theorem chooseForeground_contrast (rgb : RGB) :
  (0 <= r rgb <= 255)%Z -> (0 <= g rgb <= 255)%Z ->
  (0 <= b rgb <= 255)%Z ->
  exists fg,
    hexToRgb (chooseForeground (rgbToHex rgb)) = Some fg
    /\ contrastRatio rgb fg >= 4.5.
Proof.
  intros Hr Hg Hb.
  destruct (chosen_contrast rgb (conj Hr (conj Hg Hb))) as (fg & Hfg & Hc).
  exists fg. split; [exact Hfg|lra].
Qed.

Lemma chooseForeground_contrast_witness :
  exists fg,
    hexToRgb (chooseForeground "#abcdef") = Some fg
    /\ contrastRatio {| r := 171; g := 205; b := 239 |} fg >= 4.5.
Proof.
  apply (chooseForeground_contrast {| r := 171; g := 205; b := 239 |});
    cbn [r g b]; lia.
Defined.

(** C1: for an HSL whose saturation and lightness lie within the
    tuned ranges of its theme, whatever the hue, the background
    [hslToHex hsl] parses back to a colour, and the foreground that
    [chooseForeground] picks for it has a contrast ratio of at least
    4.5 against that colour. *)
Theorem tuned_background_contrast (theme : ThemeKind) (hsl : HSL) :
  inThemeRanges theme hsl ->
  exists bg fg,
    hexToRgb (hslToHex hsl) = Some bg
    /\ hexToRgb (chooseForeground (hslToHex hsl)) = Some fg
    /\ contrastRatio bg fg >= 4.5.
Proof.
  intros [Hs Hl].
  assert (Hrgb : channelsInRange (hslToRgb hsl)).
  { apply hslToRgb_range; destruct theme; cbn in Hs, Hl; lra. }
  destruct (chosen_contrast _ Hrgb) as (fg & Hfg & Hc).
  exists (hslToRgb hsl), fg. unfold hslToHex.
  split; [now apply hexToRgb_rgbToHex|]. split; [exact Hfg|lra].
Qed.

Lemma tuned_background_contrast_witness :
  exists bg fg,
    hexToRgb (hslToHex {| h := 200; s := 50; l := 25 |}) = Some bg
    /\ hexToRgb (chooseForeground (hslToHex {| h := 200; s := 50; l := 25 |}))
       = Some fg
    /\ contrastRatio bg fg >= 4.5.
Proof.
  apply (tuned_background_contrast Dark {| h := 200; s := 50; l := 25 |}).
  unfold inThemeRanges. cbn. lra.
Defined.

End Contrast.

(** ** The generators stay within the tuned ranges *)

Section TunedRanges.

(** The random generator, on draws in [0, 1). *)
Lemma generateAppealingHsl_inThemeRanges (theme : ThemeKind) (u0 u1 u2 : Q) :
  (0 <= u1 < 1)%Q -> (0 <= u2 < 1)%Q ->
  inThemeRanges theme (generateAppealingHsl theme u0 u1 u2).
Proof.
  intros H1 H2. unfold inThemeRanges.
  destruct theme; cbn; lra.
Qed.

(** The seeded generator, on every seed. *)
Lemma seededHsl_inThemeRanges (seed : string) (theme : ThemeKind) :
  inThemeRanges theme (seededHsl seed theme).
Proof.
  assert (H1 : (0 <= hashStringToFloat seed 1 < 1)%Q)
    by (apply hashStringToFloat_range; right; lia).
  assert (H2 : (0 <= hashStringToFloat seed 2 < 1)%Q)
    by (apply hashStringToFloat_range; right; lia).
  unfold inThemeRanges, seededHsl, mapLinear, offsetA, offsetB.
  set (sFloat := hashStringToFloat seed 1) in *.
  set (lFloat := hashStringToFloat seed 2) in *.
  clearbody sFloat lFloat.
  destruct theme; cbn; lra.
Qed.

End TunedRanges.

(** * Further properties of the code *)

(** ** The rolling hash *)

Section RollingHash.





(** X1: the hue hash of every string, the empty one included, is an
    integer in [0, 360). *)
Theorem hashStringToHue_in_hue_circle (input : string) :
  0 <= hashStringToHue input < 360.
Proof. apply hashStringToHue_range. Qed.


(** X3: [hashStringToFloat] returns a fraction in [0, 1) whenever the
    input is not empty or the offset is at least -5381. *)
Theorem hashStringToFloat_in_unit_interval (input : string) (seed : Z) :
  input <> "" \/ -5381 <= seed ->
  (0 <= hashStringToFloat input seed < 1)%Q.
Proof. apply hashStringToFloat_range. Qed.

Lemma hashStringToFloat_in_unit_interval_witness :
  (0 <= hashStringToFloat "" 2 < 1)%Q
  /\ (0 <= hashStringToFloat "my-workspace" (-9000) < 1)%Q.
Proof.
  split.
  - apply (hashStringToFloat_in_unit_interval "" 2). right. lia.
  - apply (hashStringToFloat_in_unit_interval "my-workspace" (-9000)).
    left. discriminate.
Defined.



End RollingHash.

(** ** Colour-space conversions *)

Section Conversions.

Lemma round_comp (x y : Q) : (x == y)%Q -> JS.round x = JS.round y.
Proof. intros Hxy. unfold JS.round. now rewrite Hxy. Qed.







(** X5: with saturation zero the colour is a grey: the three channels
    are equal to [round(l / 100 * 255)], whatever the hue. *)
Theorem hslToRgb_achromatic (hsl : HSL) :
  (s hsl == 0)%Q ->
  hslToRgb hsl
  = {| r := JS.round (l hsl / 100 * 255);
       g := JS.round (l hsl / 100 * 255);
       b := JS.round (l hsl / 100 * 255) |}.
Proof.
  intros Hs. unfold hslToRgb.
  set (hn := JS.fmod (JS.fmod (h hsl) 360 + 360) 360).
  set (sector := (1 - Qabs (JS.fmod (hn / 60) 2 - 1))%Q).
  set (ln := (l hsl / 100)%Q).
  set (a := (1 - Qabs (2 * ln - 1))%Q).
  assert (Hc : (a * (s hsl / 100) == 0)%Q) by (rewrite Hs; field).
  set (c := (a * (s hsl / 100))%Q) in *.
  assert (Hx : (c * sector == 0)%Q) by (rewrite Hc; ring).
  set (x := (c * sector)%Q) in *.
  assert (Hm : (ln - c / 2 == ln)%Q) by (rewrite Hc; field).
  set (m := (ln - c / 2)%Q) in *.
  clearbody hn sector a c x m.
  repeat match goal with
         | |- context [if ?t then _ else _] => destruct t
         end;
    f_equal; apply round_comp; rewrite ?Hc, ?Hx, Hm; ring.
Qed.

Lemma hslToRgb_achromatic_witness :
  hslToRgb {| h := 77; s := 0; l := 50 |}
  = {| r := JS.round (50 / 100 * 255);
       g := JS.round (50 / 100 * 255);
       b := JS.round (50 / 100 * 255) |}.
Proof.
  apply (hslToRgb_achromatic {| h := 77; s := 0; l := 50 |}).
  reflexivity.
Defined.


(** X7: parsing inverts formatting: for channels in [0, 255],
    [hexToRgb (rgbToHex rgb)] is [rgb] again. *)
Theorem hexToRgb_inverts_rgbToHex (rgb : RGB) :
  0 <= r rgb <= 255 -> 0 <= g rgb <= 255 -> 0 <= b rgb <= 255 ->
  hexToRgb (rgbToHex rgb) = Some rgb.
Proof.
  intros Hr Hg Hb. apply hexToRgb_rgbToHex. repeat split; lia.
Qed.

Lemma hexToRgb_inverts_rgbToHex_witness :
  hexToRgb (rgbToHex {| r := 26; g := 126; b := 146 |})
  = Some {| r := 26; g := 126; b := 146 |}.
Proof.
  apply (hexToRgb_inverts_rgbToHex {| r := 26; g := 126; b := 146 |});
    cbn [r g b]; lia.
Defined.

(** X8: for channels in [0, 255], [rgbToHex] yields [#] followed by
    exactly six lowercase hex digits. *)
Theorem rgbToHex_six_digits (rgb : RGB) :
  0 <= r rgb <= 255 -> 0 <= g rgb <= 255 -> 0 <= b rgb <= 255 ->
  isHexColor 6 (rgbToHex rgb) = true.
Proof.
  intros Hr Hg Hb. apply rgbToHex_isHexColor. repeat split; lia.
Qed.

Lemma rgbToHex_six_digits_witness :
  isHexColor 6 (rgbToHex {| r := 0; g := 9; b := 255 |}) = true.
Proof.
  apply (rgbToHex_six_digits {| r := 0; g := 9; b := 255 |});
    cbn [r g b]; lia.
Defined.

End Conversions.

(** ** Hex strings read back *)

Section HexParsing.

Lemma isLowerHexDigit_hexChars (c : ascii) :
  isLowerHexDigit c = true -> In c hexChars.
Proof.
  destruct c as [[] [] [] [] [] [] [] []]; intros Hc;
    try discriminate Hc; vm_compute; tauto.
Qed.

Lemma pairRoundTrips_all :
  forallb (fun hi => forallb (pairRoundTrips hi) hexChars) hexChars = true.
Proof. vm_compute. reflexivity. Qed.

Lemma hex_pair (hi lo : ascii) :
  isLowerHexDigit hi = true -> isLowerHexDigit lo = true ->
  exists n,
    JS.parseInt16 (String hi (String lo EmptyString)) = Some n
    /\ 0 <= n <= 255
    /\ hex n = String hi (String lo EmptyString).
Proof.
  intros Hhi Hlo.
  apply isLowerHexDigit_hexChars in Hhi, Hlo.
  pose proof pairRoundTrips_all as Hall.
  rewrite forallb_forall in Hall. specialize (Hall hi Hhi).
  rewrite forallb_forall in Hall. specialize (Hall lo Hlo).
  unfold pairRoundTrips in Hall.
  destruct (JS.parseInt16 _) as [n|]; [|discriminate].
  apply andb_true_iff in Hall as [Hrange Heq].
  apply andb_true_iff in Hrange as [Hlo' Hhi'].
  apply String.eqb_eq in Heq.
  exists n. split; [reflexivity|]. split; [lia|exact Heq].
Qed.

Lemma substring_short (str : string) :
  (String.length str <= 4)%nat -> substring 4 2 str = "".
Proof.
  destruct str as [|c1 [|c2 [|c3 [|c4 [|c5 rest]]]]]; cbn; intros Hlen;
    try reflexivity; lia.
Qed.

(** X9: formatting inverts parsing: a string made of [#] and six
    lowercase hex digits parses to a colour with channels in [0, 255]
    that [rgbToHex] formats back into the same string. *)
Theorem rgbToHex_inverts_hexToRgb (str : string) :
  isHexColor 6 str = true ->
  exists rgb,
    hexToRgb str = Some rgb
    /\ (0 <= r rgb <= 255 /\ 0 <= g rgb <= 255 /\ 0 <= b rgb <= 255)
    /\ rgbToHex rgb = str.
Proof.
  destruct str as [|c0 digits]; [discriminate|].
  unfold isHexColor.
  destruct c0 as [[] [] [] [] [] [] [] []]; try discriminate.
  destruct digits as [|d1 [|d2 [|d3 [|d4 [|d5 [|d6 [|d7 rest]]]]]]];
    try discriminate.
  cbn [String.length Nat.eqb allLowerHex andb].
  intros Hhex.
  repeat (apply andb_true_iff in Hhex as [? Hhex]).
  destruct (hex_pair d1 d2) as (n1 & P1 & R1 & E1); try assumption.
  destruct (hex_pair d3 d4) as (n2 & P2 & R2 & E2); try assumption.
  destruct (hex_pair d5 d6) as (n3 & P3 & R3 & E3); try assumption.
  exists {| r := n1; g := n2; b := n3 |}.
  split; [|split].
  - unfold hexToRgb. cbv [JS.stripHash JS.slice substring Nat.sub].
    now rewrite P1, P2, P3.
  - cbn [r g b]. auto.
  - unfold rgbToHex. cbn [r g b]. rewrite E1, E2, E3. reflexivity.
Qed.

Lemma rgbToHex_inverts_hexToRgb_witness :
  exists rgb,
    hexToRgb "#1a7e92" = Some rgb
    /\ (0 <= r rgb <= 255 /\ 0 <= g rgb <= 255 /\ 0 <= b rgb <= 255)
    /\ rgbToHex rgb = "#1a7e92".
Proof. apply (rgbToHex_inverts_hexToRgb "#1a7e92"). reflexivity. Defined.

(** X10: a string with at most four characters after the optional [#]
    has no blue digits: [hexToRgb] yields a [NaN]-bearing colour and
    [chooseForeground] falls back to black instead of failing. *)
Theorem short_hex_is_NaN (hex : string) :
  (String.length (JS.stripHash hex) <= 4)%nat ->
  hexToRgb hex = None /\ chooseForeground hex = "#000000".
Proof.
  intros Hlen.
  assert (Hnone : hexToRgb hex = None).
  { unfold hexToRgb. unfold JS.slice at 3. cbn [Nat.sub].
    rewrite (substring_short _ Hlen).
    destruct (JS.parseInt16 _) as [cr|]; [|reflexivity].
    destruct (JS.parseInt16 _) as [cg|]; reflexivity. }
  split; [exact Hnone|].
  unfold chooseForeground. now rewrite Hnone.
Qed.

Lemma short_hex_is_NaN_witness :
  hexToRgb "#abc" = None /\ chooseForeground "#abc" = "#000000".
Proof. apply (short_hex_is_NaN "#abc"). cbn. lia. Defined.

End HexParsing.

(** ** Luminance and contrast *)

Section ContrastBounds.

Local Open Scope R_scope.

(** X11: for channels in [0, 255] the relative luminance lies in
    [0, 1]; it is 0 for black and 1 for white. *)
Theorem relativeLuminance_unit_interval (rgb : RGB) :
  (0 <= r rgb <= 255)%Z -> (0 <= g rgb <= 255)%Z ->
  (0 <= b rgb <= 255)%Z ->
  0 <= relativeLuminance rgb <= 1
  /\ relativeLuminance black = 0 /\ relativeLuminance white = 1.
Proof.
  intros Hr Hg Hb. split; [|split].
  - apply relativeLuminance_range. repeat split; lia.
  - exact relativeLuminance_black.
  - exact relativeLuminance_white.
Qed.

Lemma relativeLuminance_unit_interval_witness :
  0 <= relativeLuminance {| r := 128; g := 128; b := 128 |} <= 1
  /\ relativeLuminance black = 0 /\ relativeLuminance white = 1.
Proof.
  apply (relativeLuminance_unit_interval {| r := 128; g := 128; b := 128 |});
    cbn [r g b]; lia.
Defined.

(** X12: between two colours with channels in [0, 255] the contrast
    ratio lies in [1, 21] and does not depend on the order of its
    arguments; of a colour against itself it is 1. *)
Theorem contrastRatio_bounds (a c : RGB) :
  channelsInRange a -> channelsInRange c ->
  1 <= contrastRatio a c <= 21
  /\ contrastRatio a c = contrastRatio c a
  /\ contrastRatio a a = 1.
Proof.
  intros Ha Hc.
  pose proof (relativeLuminance_range a Ha) as [Ha0 Ha1].
  pose proof (relativeLuminance_range c Hc) as [Hc0 Hc1].
  unfold contrastRatio.
  set (la := relativeLuminance a) in *. set (lc := relativeLuminance c) in *.
  split; [|split].
  - assert (Hmax : Rmin la lc <= Rmax la lc <= 1).
    { unfold Rmax, Rmin. destruct (Rle_dec la lc); lra. }
    assert (Hmin : 0 <= Rmin la lc).
    { unfold Rmin. destruct (Rle_dec la lc); lra. }
    set (hi := Rmax la lc) in *. set (lo := Rmin la lc) in *.
    assert (E : (hi + 0.05) / (lo + 0.05) * (lo + 0.05) = hi + 0.05)
      by (field; lra).
    set (q := (hi + 0.05) / (lo + 0.05)) in *. clearbody q hi lo.
    split; nra.
  - now rewrite Rmax_comm, Rmin_comm.
  - unfold Rmax, Rmin. destruct (Rle_dec la la); field; lra.
Qed.

Lemma contrastRatio_bounds_witness :
  1 <= contrastRatio black white <= 21
  /\ contrastRatio black white = contrastRatio white black
  /\ contrastRatio black black = 1.
Proof.
  apply (contrastRatio_bounds black white);
    unfold channelsInRange, black, white; cbn [r g b]; lia.
Defined.

(** X13: for a background with channels in [0, 255] the foreground is
    white exactly when [(L + 0.05)^2 <= 1.05 * 0.05], L being the
    luminance of the background: up to a luminance of about 0.179. *)
Theorem chooseForeground_white_iff (rgb : RGB) :
  channelsInRange rgb ->
  chooseForeground (rgbToHex rgb) = "#ffffff"%string
  <-> (relativeLuminance rgb + 0.05) * (relativeLuminance rgb + 0.05)
      <= 1.05 * 0.05.
Proof.
  intros Hrgb. rewrite (chooseForeground_rgbToHex rgb Hrgb).
  pose proof (relativeLuminance_range rgb Hrgb) as [Hlo Hhi].
  rewrite contrastRatio_white, contrastRatio_black by assumption.
  set (d := relativeLuminance rgb + 0.05) in *.
  assert (Hd : 0.05 <= d <= 1.05) by (unfold d; lra).
  assert (Hw : 1.05 / d * d = 1.05) by (field; lra).
  assert (Hb : d / 0.05 = 20 * d) by lra.
  set (cw := 1.05 / d) in *. rewrite Hb. clearbody cw d.
  destruct (Rge_dec cw (20 * d)) as [Hge|Hlt]; split; intros H;
    try reflexivity; try discriminate; nra.
Qed.

Lemma chooseForeground_white_iff_witness :
  chooseForeground (rgbToHex black) = "#ffffff"%string
  <-> (relativeLuminance black + 0.05) * (relativeLuminance black + 0.05)
      <= 1.05 * 0.05.
Proof.
  apply (chooseForeground_white_iff black).
  unfold channelsInRange, black; cbn [r g b]; lia.
Defined.

(** X14: the foreground chosen for a background with channels in
    [0, 255] reaches the larger of the two contrast ratios, the one
    against white and the one against black. *)
Theorem chooseForeground_takes_the_better (rgb : RGB) :
  channelsInRange rgb ->
  exists fg,
    hexToRgb (chooseForeground (rgbToHex rgb)) = Some fg
    /\ contrastRatio rgb fg
       = Rmax (contrastRatio rgb white) (contrastRatio rgb black).
Proof.
  intros Hrgb. rewrite (chooseForeground_rgbToHex rgb Hrgb).
  destruct (Rge_dec _ _) as [Hge|Hlt].
  - exists white. split; [exact hexToRgb_white|].
    rewrite Rmax_left; [reflexivity|lra].
  - exists black. split; [exact hexToRgb_black|].
    rewrite Rmax_right; [reflexivity|lra].
Qed.

Lemma chooseForeground_takes_the_better_witness :
  exists fg,
    hexToRgb (chooseForeground (rgbToHex white)) = Some fg
    /\ contrastRatio white fg
       = Rmax (contrastRatio white white) (contrastRatio white black).
Proof.
  apply (chooseForeground_takes_the_better white).
  unfold channelsInRange, white; cbn [r g b]; lia.
Defined.

End ContrastBounds.

(** ** Generators and derived colours *)

Section Generators.

Lemma clamp_monotone (x y lo hi : Q) :
  (lo <= hi)%Q -> (x <= y)%Q -> (clamp x lo hi <= clamp y lo hi)%Q.
Proof.
  intros Hlohi Hxy.
  destruct (clamp_cases x lo hi Hlohi) as [[Hx Ex]|[[Hx Ex]|[Hx Ex]]];
    destruct (clamp_cases y lo hi Hlohi) as [[Hy Ey]|[[Hy Ey]|[Hy Ey]]];
    rewrite Ex, Ey; lra.
Qed.





Lemma hslFromHue_bands_aux (Math_PI : Q) (Math_sin : Q -> Q)
    (hue : Q) (theme : ThemeKind) :
  (forall x, -1 <= Math_sin x <= 1)%Q ->
  (0 <= s (hslFromHue Math_PI Math_sin hue theme) <= 100
   /\ 0 <= l (hslFromHue Math_PI Math_sin hue theme) <= 100)%Q.
Proof.
  intros Hsin. unfold hslFromHue.
  match goal with |- context [Math_sin ?x] =>
    specialize (Hsin x); set (wave := Math_sin x) in * end.
  clearbody wave. destruct theme; cbn [s l]; lra.
Qed.

(** X17: as long as the sine stays within [-1, 1], [hslFromHue] keeps
    saturation and lightness inside the band written beside each theme:
    dark 20-60 and 14-30, light 15-55 and 64-80, high contrast 40-70
    and 11-21. *)
Theorem hslFromHue_bands (Math_PI : Q) (Math_sin : Q -> Q)
    (hue : Q) (theme : ThemeKind) :
  (forall x, -1 <= Math_sin x <= 1)%Q ->
  let hsl := hslFromHue Math_PI Math_sin hue theme in
  match theme with
  | Dark => (20 <= s hsl <= 60 /\ 14 <= l hsl <= 30)%Q
  | Light => (15 <= s hsl <= 55 /\ 64 <= l hsl <= 80)%Q
  | HighContrast => (40 <= s hsl <= 70 /\ 11 <= l hsl <= 21)%Q
  end.
Proof.
  intros Hsin. unfold hslFromHue.
  match goal with |- context [Math_sin ?x] =>
    specialize (Hsin x); set (wave := Math_sin x) in * end.
  clearbody wave. destruct theme; cbn [s l]; lra.
Qed.

Lemma hslFromHue_bands_witness :
  let hsl := hslFromHue 3 (fun x => clamp x (-1) 1) 300 Light in
  (15 <= s hsl <= 55 /\ 64 <= l hsl <= 80)%Q.
Proof.
  apply (hslFromHue_bands 3 (fun x => clamp x (-1) 1) 300 Light).
  intros x. apply clamp_range. lra.
Defined.



(** X19: whatever the HSL and the theme, the border is never lighter
    and never more saturated than the inactive background. *)
Theorem border_below_inactive (hsl : HSL) (theme : ThemeKind) :
  (l (deriveBorderHsl hsl theme) <= l (deriveInactiveHsl hsl theme))%Q
  /\ (s (deriveBorderHsl hsl theme) <= s (deriveInactiveHsl hsl theme))%Q.
Proof.
  unfold deriveBorderHsl, deriveInactiveHsl. cbn [s l]. split.
  - apply clamp_monotone; [lra|]. destruct theme; lra.
  - destruct (clamp_cases (s hsl * 0.6) 0 100 ltac:(lra))
      as [[H1 E1]|[[H1 E1]|[H1 E1]]];
      destruct (clamp_cases (s hsl * 0.65) 0 100 ltac:(lra))
        as [[H2 E2]|[[H2 E2]|[H2 E2]]];
      rewrite E1, E2; lra.
Qed.

(** X20: with [min <= max], [clamp] lands in [min, max] and leaves a
    value of that interval as it is; with [max < min] it returns
    [max]. *)
Theorem clamp_spec (value lo hi : Q) :
  ((lo <= hi)%Q ->
   (lo <= clamp value lo hi <= hi)%Q
   /\ ((lo <= value <= hi)%Q -> (clamp value lo hi == value)%Q))
  /\ ((hi < lo)%Q -> (clamp value lo hi == hi)%Q).
Proof.
  split.
  - intros Hlohi. split; [now apply clamp_range|].
    intros Hin.
    destruct (clamp_cases value lo hi Hlohi) as [[H E]|[[H E]|[H E]]];
      rewrite E; lra.
  - intros Hlt. unfold clamp.
    destruct (Q.max_spec value lo) as [[H1 E1]|[H1 E1]];
      destruct (Q.min_spec (Qmax value lo) hi) as [[H2 E2]|[H2 E2]]; lra.
Qed.

Lemma clamp_spec_witness :
  (10 <= clamp 42 10 10 <= 10)%Q /\ (clamp 150 100 0 == 0)%Q.
Proof.
  destruct (clamp_spec 42 10 10) as [Hin _].
  destruct (clamp_spec 150 100 0) as [_ Hout].
  split; [apply Hin; lra|apply Hout; lra].
Defined.

End Generators.

(** ** The assembled colour set *)

Section Assembler.

Lemma colors_of_valid_hsl (hsl : HSL) (theme : ThemeKind) :
  (0 <= s hsl <= 100)%Q -> (0 <= l hsl <= 100)%Q ->
  validColors (titleBarColorsFromHsl hsl theme) = true
  /\ readable (titleBarColorsFromHsl hsl theme).
Proof.
  intros Hs Hl.
  assert (Hactive : channelsInRange (hslToRgb hsl))
    by now apply hslToRgb_range.
  assert (Hinactive : channelsInRange
                        (hslToRgb (deriveInactiveHsl hsl theme))).
  { apply hslToRgb_range; unfold deriveInactiveHsl; cbn [s l];
      apply clamp_range; lra. }
  assert (Hborder : channelsInRange (hslToRgb (deriveBorderHsl hsl theme))).
  { apply hslToRgb_range; unfold deriveBorderHsl; cbn [s l];
      apply clamp_range; lra. }
  split.
  - unfold validColors, titleBarColorsFromHsl, hslToHex.
    cbn [activeBackground activeForeground inactiveBackground
         inactiveForeground border].
    rewrite !rgbToHex_isHexColor by assumption.
    unfold deriveInactiveForeground.
    destruct (chooseForeground_cases (rgbToHex (hslToRgb hsl)))
      as [-> | ->]; reflexivity.
  - destruct (chosen_contrast _ Hactive) as (fg & Hfg & Hc).
    exists (hslToRgb hsl), fg.
    unfold titleBarColorsFromHsl, hslToHex.
    cbn [activeBackground activeForeground].
    split; [now apply hexToRgb_rgbToHex|]. split; [exact Hfg|].
    apply Rle_ge. apply Rge_le in Hc. lra.
Qed.

(** X21: from a base HSL with saturation and lightness in [0, 100], in
    any theme, all five colours of the set match their hex pattern
    (eight digits for the inactive foreground, six for the others), and
    the active foreground has a contrast of at least 4.5 against the
    active background. *)
Theorem titleBarColorsFromHsl_valid (hsl : HSL) (theme : ThemeKind) :
  (0 <= s hsl <= 100)%Q -> (0 <= l hsl <= 100)%Q ->
  validColors (titleBarColorsFromHsl hsl theme) = true
  /\ readable (titleBarColorsFromHsl hsl theme).
Proof. apply colors_of_valid_hsl. Qed.

Lemma titleBarColorsFromHsl_valid_witness :
  validColors (titleBarColorsFromHsl {| h := 200; s := 50; l := 25 |} Dark)
  = true
  /\ readable (titleBarColorsFromHsl {| h := 200; s := 50; l := 25 |} Dark).
Proof.
  apply (titleBarColorsFromHsl_valid {| h := 200; s := 50; l := 25 |} Dark);
    cbn [s l]; lra.
Defined.

Lemma generateTitleBarColorsFromSeed_valid_aux
    (seed : string) (theme : ThemeKind) :
  validColors (generateTitleBarColorsFromSeed seed theme) = true
  /\ readable (generateTitleBarColorsFromSeed seed theme).
Proof.
  replace (generateTitleBarColorsFromSeed seed theme)
    with (titleBarColorsFromHsl (seededHsl seed theme) theme)
    by (destruct theme; reflexivity).
  destruct (seededHsl_inThemeRanges seed theme) as [Hs Hl].
  apply colors_of_valid_hsl; destruct theme;
    cbn [themeRanges fst snd] in Hs, Hl; lra.
Qed.

(** X22: for every seed, the empty one included, and every theme, the
    seeded colour set matches the hex patterns and its active
    foreground has a contrast of at least 4.5 against its active
    background. *)
Theorem generateTitleBarColorsFromSeed_valid
    (seed : string) (theme : ThemeKind) :
  validColors (generateTitleBarColorsFromSeed seed theme) = true
  /\ readable (generateTitleBarColorsFromSeed seed theme).
Proof. apply generateTitleBarColorsFromSeed_valid_aux. Qed.

(** X23: on draws in [0, 1) the random colour set matches the hex
    patterns and its active foreground has a contrast of at least 4.5
    against its active background, in every theme. *)
Theorem generateTitleBarColors_valid (theme : ThemeKind) (u0 u1 u2 : Q) :
  (0 <= u1 < 1)%Q -> (0 <= u2 < 1)%Q ->
  validColors (generateTitleBarColors theme u0 u1 u2) = true
  /\ readable (generateTitleBarColors theme u0 u1 u2).
Proof.
  intros H1 H2. unfold generateTitleBarColors.
  apply colors_of_valid_hsl; destruct theme; cbn; lra.
Qed.

Lemma generateTitleBarColors_valid_witness :
  validColors (generateTitleBarColors HighContrast (1 # 3) (1 # 2) 0) = true
  /\ readable (generateTitleBarColors HighContrast (1 # 3) (1 # 2) 0).
Proof.
  apply (generateTitleBarColors_valid HighContrast (1 # 3) (1 # 2) 0); lra.
Defined.

(** X24: as long as the sine stays within [-1, 1], the colour set
    anchored to a hue matches the hex patterns and its active
    foreground has a contrast of at least 4.5 against its active
    background, for every hue and theme. *)
Theorem generateTitleBarColorsFromHue_valid
    (Math_PI : Q) (Math_sin : Q -> Q) (hue : Q) (theme : ThemeKind) :
  (forall x, -1 <= Math_sin x <= 1)%Q ->
  validColors (generateTitleBarColorsFromHue Math_PI Math_sin hue theme)
  = true
  /\ readable (generateTitleBarColorsFromHue Math_PI Math_sin hue theme).
Proof.
  intros Hsin. unfold generateTitleBarColorsFromHue.
  pose proof (hslFromHue_bands_aux Math_PI Math_sin hue theme Hsin) as Hb.
  apply colors_of_valid_hsl; destruct theme; lra.
Qed.

Lemma generateTitleBarColorsFromHue_valid_witness :
  validColors
    (generateTitleBarColorsFromHue 3 (fun x => clamp x (-1) 1) (-30) Dark)
  = true
  /\ readable
       (generateTitleBarColorsFromHue 3 (fun x => clamp x (-1) 1) (-30) Dark).
Proof.
  apply (generateTitleBarColorsFromHue_valid
           3 (fun x => clamp x (-1) 1) (-30) Dark).
  intros x. apply clamp_range. lra.
Defined.

End Assembler.

(** ** The title-bar manager and the startup *)

Section Manager.

Lemma title_bar_key_cases (key : string) :
  key ∈ TITLE_BAR_KEYS <->
  key = "titleBar.activeBackground" \/ key = "titleBar.activeForeground"
  \/ key = "titleBar.inactiveBackground"
  \/ key = "titleBar.inactiveForeground" \/ key = "titleBar.border".
Proof. unfold TITLE_BAR_KEYS. set_solver. Qed.

Lemma applyColors_with_workspace (colors : TitleBarColors) (host : Host) :
  hasWorkspace host = true ->
  applyColors colors host
  = ({| workspaceFolders := workspaceFolders host;
        activeColorTheme := activeColorTheme host;
        colorCustomizations :=
          Some (<["titleBar.border" := border colors]>
                (<["titleBar.inactiveForeground" := inactiveForeground colors]>
                (<["titleBar.inactiveBackground" := inactiveBackground colors]>
                (<["titleBar.activeForeground" := activeForeground colors]>
                (<["titleBar.activeBackground" := activeBackground colors]>
                 (default ∅ (colorCustomizations host)))))));
        state := <[STATE_KEY := colors]> (state host);
        warnings := warnings host |}, true).
Proof. intros Hws. unfold applyColors. now rewrite Hws. Qed.

Lemma applyColors_keeps_workspace (colors : TitleBarColors) (host : Host) :
  hasWorkspace (fst (applyColors colors host)) = hasWorkspace host.
Proof.
  assert (Hfolders : workspaceFolders (fst (applyColors colors host))
                     = workspaceFolders host)
    by (unfold applyColors; destruct (negb _); reflexivity).
  unfold hasWorkspace. now rewrite Hfolders.
Qed.

Lemma applied_lookup (colors : TitleBarColors) (host : Host) (key : string) :
  hasWorkspace host = true ->
  default ∅ (colorCustomizations (fst (applyColors colors host))) !! key
  = if decide ("titleBar.border" = key) then Some (border colors)
    else if decide ("titleBar.inactiveForeground" = key)
    then Some (inactiveForeground colors)
    else if decide ("titleBar.inactiveBackground" = key)
    then Some (inactiveBackground colors)
    else if decide ("titleBar.activeForeground" = key)
    then Some (activeForeground colors)
    else if decide ("titleBar.activeBackground" = key)
    then Some (activeBackground colors)
    else default ∅ (colorCustomizations host) !! key.
Proof.
  intros Hws. rewrite (applyColors_with_workspace colors host Hws).
  cbn [fst colorCustomizations from_option]. unfold Datatypes.id at 1.
  now rewrite !lookup_insert.
Qed.

Lemma applied_lookup_foreign
    (colors : TitleBarColors) (host : Host) (key : string) :
  hasWorkspace host = true -> key ∉ TITLE_BAR_KEYS ->
  default ∅ (colorCustomizations (fst (applyColors colors host))) !! key
  = default ∅ (colorCustomizations host) !! key.
Proof.
  intros Hws Hout. rewrite (applied_lookup colors host key Hws).
  rewrite title_bar_key_cases in Hout.
  repeat (case_decide; [exfalso; subst key; apply Hout; auto 10|]).
  reflexivity.
Qed.

Lemma applied_saved (colors : TitleBarColors) (host : Host) :
  hasWorkspace host = true ->
  hasSavedColors (fst (applyColors colors host)) = true.
Proof.
  intros Hws. rewrite (applyColors_with_workspace colors host Hws).
  unfold hasSavedColors. cbn [fst state].
  rewrite lookup_insert_eq. now apply bool_decide_eq_true_2.
Qed.

(** X25: with a workspace folder open, [applyColors] returns [true],
    writes the five colours under the five title-bar keys, leaves the
    value of every other key as it was, and saves the colour set so
    that [hasSavedColors] holds and [getSavedColors] returns it. *)
Theorem applyColors_merges (colors : TitleBarColors) (host : Host) :
  hasWorkspace host = true ->
  let applied := fst (applyColors colors host) in
  let written := default ∅ (colorCustomizations applied) in
  snd (applyColors colors host) = true
  /\ written !! "titleBar.activeBackground" = Some (activeBackground colors)
  /\ written !! "titleBar.activeForeground" = Some (activeForeground colors)
  /\ written !! "titleBar.inactiveBackground"
     = Some (inactiveBackground colors)
  /\ written !! "titleBar.inactiveForeground"
     = Some (inactiveForeground colors)
  /\ written !! "titleBar.border" = Some (border colors)
  /\ (forall key, key ∉ TITLE_BAR_KEYS ->
                  written !! key
                  = default ∅ (colorCustomizations host) !! key)
  /\ getSavedColors applied = Some colors
  /\ hasSavedColors applied = true.
Proof.
  intros Hws applied written. subst written applied.
  split; [now rewrite (applyColors_with_workspace colors host Hws)|].
  do 5 (split; [rewrite (applied_lookup colors host _ Hws); reflexivity|]).
  split; [|split].
  - intros key Hout. now apply applied_lookup_foreign.
  - rewrite (applyColors_with_workspace colors host Hws).
    unfold getSavedColors. cbn [fst state]. apply lookup_insert_eq.
  - now apply applied_saved.
Qed.

Lemma applyColors_merges_witness :
  default ∅ (colorCustomizations
               (fst (applyColors
                       (titleBarColorsFromHsl {| h := 200; s := 50; l := 25 |}
                                              Dark)
                       hostWithWorkspace)))
    !! "editor.background" = Some "#101010".
Proof.
  pose proof (applyColors_merges
                (titleBarColorsFromHsl {| h := 200; s := 50; l := 25 |} Dark)
                hostWithWorkspace eq_refl) as Happly.
  cbv zeta in Happly.
  destruct Happly as (_ & _ & _ & _ & _ & _ & Hother & _).
  rewrite Hother; [vm_compute; reflexivity|].
  apply editor_background_is_foreign.
Defined.

(** X26: [applyColors] returns [true] exactly when a workspace folder
    is open; without one it leaves the setting and the saved state as
    they are and shows one warning. *)
Theorem applyColors_needs_workspace (colors : TitleBarColors) (host : Host) :
  snd (applyColors colors host) = hasWorkspace host
  /\ (hasWorkspace host = false ->
      colorCustomizations (fst (applyColors colors host))
      = colorCustomizations host
      /\ state (fst (applyColors colors host)) = state host
      /\ List.length (warnings (fst (applyColors colors host)))
         = S (List.length (warnings host))).
Proof.
  unfold applyColors. destruct (hasWorkspace host) eqn:Hws;
    cbn [negb fst snd colorCustomizations state warnings].
  - split; [reflexivity|discriminate].
  - split; [reflexivity|]. intros _.
    rewrite length_app. cbn [List.length].
    repeat split. lia.
Qed.

Lemma applyColors_needs_workspace_witness :
  colorCustomizations
    (fst (applyColors
            (titleBarColorsFromHsl {| h := 200; s := 50; l := 25 |} Dark)
            hostWithoutWorkspace))
  = colorCustomizations hostWithoutWorkspace.
Proof.
  destruct (applyColors_needs_workspace
              (titleBarColorsFromHsl {| h := 200; s := 50; l := 25 |} Dark)
              hostWithoutWorkspace) as [_ Hkeep].
  destruct (Hkeep eq_refl) as (Hsetting & _ & _). exact Hsetting.
Defined.

Lemma reset_lookup (host : Host) (key : string) :
  hasWorkspace host = true ->
  default ∅ (colorCustomizations (resetColors host)) !! key
  = if decide (key ∈ TITLE_BAR_KEYS) then None
    else default ∅ (colorCustomizations host) !! key.
Proof.
  intros Hws. unfold resetColors. rewrite Hws.
  cbn [negb colorCustomizations].
  set (updated := fold_left _ TITLE_BAR_KEYS _).
  assert (Hlookup := lookup_delete_keys TITLE_BAR_KEYS
                       (default ∅ (colorCustomizations host)) key).
  fold updated in Hlookup.
  destruct (List.length (map_to_list updated).*1 =? 0)%nat eqn:Hkeys;
    cbn [default]; [|exact Hlookup].
  apply no_keys_empty in Hkeys. rewrite Hkeys in Hlookup.
  rewrite <- Hlookup. apply lookup_empty.
Qed.

Lemma resetColors_never_empty (host : Host) :
  hasWorkspace host = true ->
  colorCustomizations (resetColors host) <> Some ∅.
Proof.
  intros Hws. unfold resetColors. rewrite Hws.
  cbn [negb colorCustomizations].
  set (updated := fold_left _ TITLE_BAR_KEYS _).
  destruct (List.length (map_to_list updated).*1 =? 0)%nat eqn:Hkeys;
    [discriminate|].
  intros [= Hempty]. apply no_keys_empty in Hempty. congruence.
Qed.

Lemma resetColors_keeps_workspace (host : Host) :
  hasWorkspace (resetColors host) = hasWorkspace host.
Proof.
  assert (Hfolders : workspaceFolders (resetColors host)
                     = workspaceFolders host)
    by (unfold resetColors; destruct (negb _); reflexivity).
  unfold hasWorkspace. now rewrite Hfolders.
Qed.

(** The written value is determined by the map it stands for. *)
Lemma written_value_eq (v1 v2 : option (gmap string string)) :
  v1 <> Some ∅ -> v2 <> Some ∅ ->
  default ∅ v1 = default ∅ v2 -> v1 = v2.
Proof.
  destruct v1 as [m1|], v2 as [m2|]; simpl; intros H1 H2 E;
    subst; congruence.
Qed.

(** X27: resetting after applying undoes the application: with a
    workspace folder open and a map that held no title-bar key, the
    map after [applyColors] then [resetColors] is the original one
    ([undefined] if that was empty), and no colours remain saved. *)
Theorem resetColors_undoes_applyColors
    (colors : TitleBarColors) (host : Host) :
  hasWorkspace host = true ->
  (forall key, key ∈ TITLE_BAR_KEYS ->
               default ∅ (colorCustomizations host) !! key = None) ->
  let after := resetColors (fst (applyColors colors host)) in
  default ∅ (colorCustomizations after)
  = default ∅ (colorCustomizations host)
  /\ (colorCustomizations after = None
      <-> default ∅ (colorCustomizations host) = ∅)
  /\ hasSavedColors after = false.
Proof.
  intros Hws Hfree after. subst after.
  set (applied := fst (applyColors colors host)).
  assert (Hws' : hasWorkspace applied = true)
    by (unfold applied; now rewrite applyColors_keeps_workspace).
  assert (Hmap : default ∅ (colorCustomizations (resetColors applied))
                 = default ∅ (colorCustomizations host)).
  { apply map_eq. intros key. rewrite (reset_lookup applied key Hws').
    case_decide as Hin; [symmetry; now apply Hfree|].
    unfold applied. now apply applied_lookup_foreign. }
  split; [exact Hmap|]. split.
  - rewrite <- Hmap.
    pose proof (resetColors_never_empty applied Hws') as Hne.
    destruct (colorCustomizations (resetColors applied)) as [m|];
      simpl; split; intros H; subst; congruence.
  - unfold resetColors. rewrite Hws'. cbn [negb].
    unfold hasSavedColors. cbn [state].
    rewrite lookup_delete_eq. apply bool_decide_eq_false_2.
    intros [? H]; discriminate.
Qed.

Lemma resetColors_undoes_applyColors_witness :
  let host :=
    {| workspaceFolders := Some ["file:///Users/dev/project-a"];
       activeColorTheme := CTLight;
       colorCustomizations := Some {[ "editor.background" := "#101010" ]};
       state := ∅;
       warnings := [] |} in
  let colors := titleBarColorsFromHsl {| h := 200; s := 50; l := 25 |} Light in
  default ∅ (colorCustomizations (resetColors (fst (applyColors colors host))))
  = {[ "editor.background" := "#101010" ]}.
Proof.
  intros host colors.
  assert (Hfree : forall key, key ∈ TITLE_BAR_KEYS ->
                    default ∅ (colorCustomizations host) !! key = None).
  { intros key Hin. apply title_bar_key_cases in Hin.
    destruct Hin as [->|[->|[->|[->| ->]]]]; vm_compute; reflexivity. }
  destruct (resetColors_undoes_applyColors colors host eq_refl Hfree)
    as [Hmap _].
  exact Hmap.
Defined.

Lemma host_eq (h1 h2 : Host) :
  workspaceFolders h1 = workspaceFolders h2 ->
  activeColorTheme h1 = activeColorTheme h2 ->
  colorCustomizations h1 = colorCustomizations h2 ->
  state h1 = state h2 ->
  warnings h1 = warnings h2 ->
  h1 = h2.
Proof.
  destruct h1, h2. cbn. intros. subst. reflexivity.
Qed.

Lemma resetColors_other_fields (host : Host) :
  workspaceFolders (resetColors host) = workspaceFolders host
  /\ activeColorTheme (resetColors host) = activeColorTheme host
  /\ warnings (resetColors host) = warnings host
  /\ state (resetColors host)
     = if hasWorkspace host then delete STATE_KEY (state host)
       else state host.
Proof.
  unfold resetColors. destruct (hasWorkspace host); cbn; auto.
Qed.

(** X28: [resetColors] is idempotent: a second reset changes nothing. *)
Theorem resetColors_idempotent (host : Host) :
  resetColors (resetColors host) = resetColors host.
Proof.
  destruct (resetColors_other_fields host) as (F1 & T1 & W1 & S1).
  destruct (resetColors_other_fields (resetColors host))
    as (F2 & T2 & W2 & S2).
  rewrite resetColors_keeps_workspace in S2.
  apply host_eq; try congruence.
  - destruct (hasWorkspace host) eqn:Hws.
    + assert (Hws' : hasWorkspace (resetColors host) = true)
        by now rewrite resetColors_keeps_workspace.
      apply written_value_eq; try now apply resetColors_never_empty.
      apply map_eq. intros key.
      rewrite (reset_lookup (resetColors host) key Hws').
      rewrite (reset_lookup host key Hws).
      case_decide; reflexivity.
    + unfold resetColors at 1.
      rewrite resetColors_keeps_workspace, Hws. reflexivity.
  - rewrite S2, S1. destruct (hasWorkspace host); [|reflexivity].
    apply delete_delete_eq.
Qed.

(** Without [colorOnStartup] the draws are not consumed. *)
Lemma activate_draws (u0 u1 u2 v0 v1 v2 : Q) (host : Host) :
  activate false u0 u1 u2 host = activate false v0 v1 v2 host.
Proof. unfold activate. destruct (negb (hasWorkspace host)); reflexivity. Qed.

Lemma activate_saved (u0 u1 u2 : Q) (host : Host) :
  hasSavedColors host = true -> activate false u0 u1 u2 host = host.
Proof.
  intros Hsaved. unfold activate. rewrite Hsaved.
  destruct (negb (hasWorkspace host)); reflexivity.
Qed.

Lemma activate_cases (u0 u1 u2 : Q) (host : Host) :
  activate false u0 u1 u2 host = host
  \/ hasSavedColors (activate false u0 u1 u2 host) = true.
Proof.
  unfold activate.
  destruct (hasWorkspace host) eqn:Hws; cbn [negb]; [|now left].
  destruct (hasSavedColors host) eqn:Hsaved; cbn [negb]; [now left|].
  destruct (getWorkspaceSeed host) as [[|c rest]|]; try now left.
  right. now apply applied_saved.
Qed.

(** X29: without the setting [colorOnStartup], starting up a second
    time changes nothing, whatever the host: a workspace coloured once
    keeps its colours on every later start. *)
Theorem activate_idempotent (u0 u1 u2 v0 v1 v2 : Q) (host : Host) :
  activate false u0 u1 u2 (activate false v0 v1 v2 host)
  = activate false v0 v1 v2 host.
Proof.
  destruct (activate_cases v0 v1 v2 host) as [Hsame|Hsaved].
  - rewrite Hsame. rewrite (activate_draws u0 u1 u2 v0 v1 v2). exact Hsame.
  - now apply activate_saved.
Qed.

(** X30: on the first start in a workspace (a folder open, no colours
    saved, [colorOnStartup] off) the colour set seeded from the URI of
    the first folder is applied: it is saved, it matches the hex
    patterns, its foreground has a contrast of at least 4.5, and its
    active background is written under [titleBar.activeBackground]. *)
Theorem activate_first_start
    (u0 u1 u2 : Q) (host : Host) (seed : string) :
  hasSavedColors host = false ->
  getWorkspaceSeed host = Some seed -> seed <> "" ->
  let colors := generateTitleBarColorsFromSeed seed (getThemeKind host) in
  let started := activate false u0 u1 u2 host in
  getSavedColors started = Some colors
  /\ validColors colors = true /\ readable colors
  /\ default ∅ (colorCustomizations started) !! "titleBar.activeBackground"
     = Some (activeBackground colors).
Proof.
  intros Hsaved Hseed Hne colors started. subst started.
  assert (Hws : hasWorkspace host = true).
  { unfold getWorkspaceSeed in Hseed. unfold hasWorkspace.
    destruct (workspaceFolders host) as [[|folder folders]|];
      try discriminate. reflexivity. }
  assert (Hstart : activate false u0 u1 u2 host
                   = fst (applyColors colors host)).
  { unfold activate. rewrite Hws, Hsaved, Hseed. cbn [negb].
    destruct seed as [|c rest]; [congruence|reflexivity]. }
  rewrite Hstart.
  split; [|split; [|split]].
  - rewrite (applyColors_with_workspace colors host Hws).
    unfold getSavedColors. cbn [fst state]. apply lookup_insert_eq.
  - apply generateTitleBarColorsFromSeed_valid_aux.
  - apply generateTitleBarColorsFromSeed_valid_aux.
  - rewrite (applied_lookup colors host _ Hws). reflexivity.
Qed.

Lemma activate_first_start_witness :
  getSavedColors (activate false 0 0 0 hostWithWorkspace)
  = Some (generateTitleBarColorsFromSeed "file:///Users/dev/project-a" Dark).
Proof.
  destruct (activate_first_start 0 0 0 hostWithWorkspace
              "file:///Users/dev/project-a" eq_refl eq_refl
              ltac:(discriminate)) as [Hsavedcolors _].
  exact Hsavedcolors.
Defined.

End Manager.
